(** * MonitoringApp: a shallow embedding of the sampling loop, the tone and
    colour maps and the button-gesture recogniser of [MonitoringApp.py].

    Conventions of the embedding.
    - Python numbers that the program treats as real quantities (distances in
      cm, frequencies in Hz, potentiometer percentages, colour channels) are
      exact rationals [Q]; rounding of binary floating point is not modelled.
      Results on such numbers are stated up to [Qeq] ([==]).
    - Wall-clock instants read through [time.time()] in the button handler are
      integers counting milliseconds, so [RDM_TIME] is [1000] and [ORD_TIME] is
      [2000]; the unset value [-1] of the parameter [t0] is kept as [-1].
    - A pandas [DataFrame] is a list of column names with a list of rows, each
      row carrying its index label and one cell per column.
    - A Python exception is a value of type [exn]; an operation on a frame
      returns a [result], a statement of [run_mode] an [outcome] that keeps
      the state the exception was raised in. *)

From Stdlib Require Import QArith Qround Lqa ZArith Lia List Bool String Ascii.
From Stdlib Require Import Sorting.Sorted Sorting.Permutation.
Import ListNotations.

Open Scope Q_scope.

(** ** Module constants (lines 69-124 of the source) *)

Definition MIN_DIST : Q := 4.
Definition MAX_DIST : Q := 20.
Definition MIN_FREQ : Q := 100.
Definition MAX_FREQ : Q := 2000.
Definition VIOLET_RATIO : Q := 75 # 100.
Definition DUTY_CYCLE : Q := 10.
Definition BUFFER_SIZE : nat := 250.

(** Python comparisons on numbers, as booleans. *)
Definition Qgtb (x y : Q) : bool := negb (Qle_bool x y).
Definition Qltb (x y : Q) : bool := negb (Qle_bool y x).
Definition Qgeb (x y : Q) : bool := Qle_bool y x.

(** ** [frequency] (lines 194-220)

    [None] is Python's [None].  The inner [if] of the last branch leaves
    [freq] unbound when its test fails; that outcome is [FreqUnbound]. *)

Inductive freq_result : Type :=
| Freq (f : option Q)
| FreqUnbound.

Definition frequency (distance : Q) : freq_result :=
  if Qgtb distance MAX_DIST then Freq None
  else if Qltb distance MIN_DIST then Freq (Some MAX_FREQ)
  else
    let freq_proportion := (distance - MIN_DIST) / (MAX_DIST - MIN_DIST) in
    if Qle_bool distance MAX_DIST && Qgeb distance MIN_DIST
    then Freq (Some (MAX_FREQ - freq_proportion * (MAX_FREQ - MIN_FREQ)))
    else FreqUnbound.

(** Python truthiness of a value that is [None] or a number. *)
Definition truthy (freq : option Q) : bool :=
  match freq with
  | None => false
  | Some f => negb (Qeq_bool f 0)
  end.

Definition is_not_None (freq : option Q) : bool :=
  match freq with
  | None => false
  | Some _ => true
  end.

(** Calls made on the PWM object [buzz]. *)
Inductive buzz_call : Type :=
| ChangeFrequency (f : Q)
| BuzzStart (duty : Q)
| BuzzStop.

(** [buzzer] (lines 223-248): the calls made on [buzz], and the value
    returned.  [guard] is the test applied to [freq] before
    [buzz.ChangeFrequency]; the source uses [truthy]. *)
Definition buzzer_with (guard : option Q -> bool) (distance : Q)
  : option (list buzz_call * option Q) :=
  match frequency distance with
  | FreqUnbound => None
  | Freq freq =>
      let calls :=
        match freq with
        | Some f => if guard freq then [ChangeFrequency f] else []
        | None => []
        end in
      Some (calls ++ [BuzzStart DUTY_CYCLE], freq)
  end.

Definition buzzer := buzzer_with truthy.

(** ** [get_color] (lines 271-320)

    The six tests of the [if]/[elif] chain, in order; [segment] names the
    branch whose body runs, [NoSegment] the fall-through in which [red],
    [green] and [blue] stay unbound. *)

Inductive segment : Type := Seg1 | Seg2 | Seg3 | Seg4 | Seg5 | Seg6 | NoSegment.

Definition color_segment (percent : Q) : segment :=
  if Qle_bool percent (100 * 1 / 6) then Seg1
  else if Qltb (100 * 1 / 6) percent && Qle_bool percent (100 * 2 / 6) then Seg2
  else if Qltb (100 * 2 / 6) percent && Qle_bool percent (100 * 3 / 6) then Seg3
  else if Qltb (100 * 3 / 6) percent && Qle_bool percent (100 * 4 / 6) then Seg4
  else if Qltb (100 * 4 / 6) percent && Qle_bool percent (100 * 5 / 6) then Seg5
  else if Qgtb percent (5 / 6) then Seg6
  else NoSegment.

Definition segment_color (s : segment) (percent : Q) : option (Q * Q * Q) :=
  match s with
  | Seg1 => Some (1, percent / (100 * 1 / 6), 0)
  | Seg2 => Some (1 - (percent - 100 * 1 / 6) / (100 * 1 / 6), 1, 0)
  | Seg3 => Some (0, 1, (percent - 100 * 2 / 6) / (100 * 1 / 6))
  | Seg4 => Some (0, 1 - (percent - 100 * 3 / 6) / (100 * 1 / 6), 1)
  | Seg5 => Some ((percent - 100 * 4 / 6) / (100 * 1 / 6), 0, 1)
  | Seg6 => Some (1, 0, 1 - (percent - 100 * 5 / 6) / (100 * 1 / 6))
  | NoSegment => None
  end.

(** The value of [percent] after the rescaling on line 287. *)
Definition scaled (percent : Q) : Q := percent * VIOLET_RATIO.

Definition get_color (percent : Q) : option (Q * Q * Q) :=
  let percent := scaled percent in
  segment_color (color_segment percent) percent.


Definition in_unit (x : Q) : Prop := 0 <= x <= 1.

Definition rgb_in_unit (c : Q * Q * Q) : Prop :=
  let '(r, g, b) := c in in_unit r /\ in_unit g /\ in_unit b.

(** Python's [int] on a number: truncation toward zero. *)
Definition py_int (x : Q) : Z := Z.quot (Qnum x) (Zpos (Qden x)).

(** Lines 545-547: the channels on the 0-255 scale used for reporting. *)
Definition to_8bit (c : Q * Q * Q) : Z * Z * Z :=
  let '(r, g, b) := c in
  (py_int (r * 255), py_int (g * 255), py_int (b * 255)).

(** Lines 568-571 of [run_mode]: the calls made on [buzz] after a range
    reading, and the value left in [freq]; [guard] is as in [buzzer_with]. *)
Definition tone_update_with (guard : option Q -> bool) (distance : Q)
  : option (list buzz_call * option Q) :=
  match frequency distance with
  | FreqUnbound => None
  | Freq freq =>
      match freq with
      | Some f =>
          if guard freq
          then let f := inject_Z (py_int f) in
               Some ([ChangeFrequency f], Some f)
          else Some ([], freq)
      | None => Some ([], freq)
      end
  end.

Definition tone_update := tone_update_with truthy.

(** ** Operating modes (lines 118-121) and [mode_settings] (lines 323-358) *)

Definition MS_MODE : Z := 1.
Definition RDM_MODE : Z := 2.
Definition ORD_MODE : Z := 3.

Definition mode_settings (cmode : Z) : bool * bool :=
  let monitor := false in
  let record := false in
  let '(monitor, record) :=
    if (cmode =? 1)%Z then (true, false) else (monitor, record) in
  let '(monitor, record) :=
    if (cmode =? 2)%Z then (true, true) else (monitor, record) in
  let '(monitor, record) :=
    if (cmode =? 3)%Z then (false, true) else (monitor, record) in
  (monitor, record).

(** ** The button handler [get_mode] (lines 387-462)

    The handler polls two things: the clock, through [time.time()], and the
    button, through [button.is_pressed].  The button is a signal over
    instants; every clock read returns the current instant and the next read
    comes [tick] milliseconds later.  The shared variable [mode], the
    console and the status LED [regled] are the handler's only outputs. *)

Definition RDM_TIME : Z := 1000.
Definition ORD_TIME : Z := 2000.

Inductive effect : Type :=
| Print (line : string)
| RegledOn
| RegledOff
| RegledBlink.

Record gstate : Type := mkG {
  now : Z;              (* the instant the next observation is made at *)
  mode : Z;             (* the global [mode] *)
  out : list effect     (* console lines and LED calls, oldest first *)
}.

(** Control points of [get_mode]: its entry and the heads of its four
    [while] loops. *)
Inductive pc : Type :=
| Entry (t0 : Z)         (* line 407, called with this [t0] *)
| FirstHold (t0 : Z)     (* line 415: first press, waiting for a release *)
| Released (t0 : Z)      (* line 418: released, waiting for a second press *)
| SecondHold (t0 t1 : Z) (* line 422: second press, waiting for a release *)
| LongHold (t0 : Z)      (* line 444: held past RDM_TIME *)
| Returned.

Inductive poll : Type := Again | Edge | Expired.

Section Gesture.

Variable tick : Z.
Variable pressed : Z -> bool.

(** The state once [tick] milliseconds have passed. *)
Definition advance (s : gstate) : gstate :=
  mkG (now s + tick) (mode s) (out s).

Definition time_time (s : gstate) : Z * gstate :=
  (now s, advance s).

Definition is_pressed (s : gstate) : bool := pressed (now s).

(** One evaluation of
    [while time.time() - t0 <= window: if <button test>: ...]:
    the clock is read, and inside the window the button is compared
    with [want]. *)
Definition poll_once (t0 window : Z) (want : bool) (s : gstate)
  : poll * gstate :=
  let '(t, s1) := time_time s in
  if (t - t0 <=? window)%Z
  then if Bool.eqb (is_pressed s1) want then (Edge, s1) else (Again, s1)
  else (Expired, s1).

(** [if mode != m: print(line); mode = m; regled.<call>()] *)
Definition switch_if_changed (m : Z) (line : string) (led : effect)
    (s : gstate) : gstate :=
  if negb (mode s =? m)%Z
  then mkG (now s) m (out s ++ [Print line; led])
  else s.

(** Lines 431-433: the same three statements with no test around them. *)
Definition switch (m : Z) (line : string) (led : effect) (s : gstate)
  : gstate :=
  mkG (now s) m (out s ++ [Print line; led]).

Definition step (c : pc * gstate) : pc * gstate :=
  let '(p, s) := c in
  match p with
  | Entry t0 =>
      if is_pressed s then
        let '(t0, s) :=
          if (t0 =? -1)%Z then time_time s else (t0, s) in
        (FirstHold t0, s)
      else (Returned, s)
  | FirstHold t0 =>
      match poll_once t0 RDM_TIME false s with
      | (Again, s1) => (FirstHold t0, s1)
      | (Edge, s1) => (Released t0, s1)
      | (Expired, s1) => (LongHold t0, s1)
      end
  | Released t0 =>
      match poll_once t0 RDM_TIME true s with
      | (Again, s1) => (Released t0, s1)
      | (Edge, s1) => let '(t1, s2) := time_time s1 in (SecondHold t0 t1, s2)
      | (Expired, s1) =>
          (Returned, switch_if_changed MS_MODE "MS mode" RegledOff s1)
      end
  | SecondHold t0 t1 =>
      match poll_once t0 RDM_TIME false s with
      | (Again, s1) => (SecondHold t0 t1, s1)
      | (Edge, s1) =>
          (Returned, switch_if_changed RDM_MODE "RDM mode" RegledOn s1)
      | (Expired, s1) =>
          (* get_mode(t1) followed by return *)
          (Entry t1, switch MS_MODE "MS mode" RegledOff s1)
      end
  | LongHold t0 =>
      match poll_once t0 ORD_TIME false s with
      | (Again, s1) => (LongHold t0, s1)
      | (Edge, s1) =>
          (Returned, switch_if_changed MS_MODE "MS mode" RegledOff s1)
      | (Expired, s1) =>
          (Returned, switch_if_changed ORD_MODE "ORD Mode" RegledBlink s1)
      end
  | Returned => (Returned, s)
  end.

Fixpoint run (fuel : nat) (c : pc * gstate) : pc * gstate :=
  match fuel with
  | O => c
  | S fuel' =>
      match fst c with
      | Returned => c
      | _ => run fuel' (step c)
      end
  end.

(** [get_mode()] as the press event calls it: [Some] final state when the
    handler returns within [fuel] control steps. *)
Definition get_mode (fuel : nat) (s : gstate) : option gstate :=
  match run fuel (Entry (-1), s) with
  | (Returned, s') => Some s'
  | _ => None
  end.

End Gesture.

(** One configuration leads to another by running the handler. *)
Inductive reaches (tick : Z) (pressed : Z -> bool)
  : pc * gstate -> pc * gstate -> Prop :=
| reaches_here c : reaches tick pressed c c
| reaches_next c c' :
    reaches tick pressed (step tick pressed c) c' ->
    reaches tick pressed c c'.

(** The handler entered in state [s] returns, with the global [mode] equal
    to [m]. *)
Definition resolves (tick : Z) (pressed : Z -> bool) (s : gstate) (m : Z)
  : Prop :=
  exists k s',
    (forall fuel, (k <= fuel)%nat -> get_mode tick pressed fuel s = Some s') /\
    mode s' = m.

(** ** The range measurement [sonic] (lines 135-191)

    [sonic] spins on two things it does not control: the echo pin and the
    global [mode], which the button handler may rewrite at any moment.  The
    surroundings are a sequence of probes; every evaluation of a loop
    condition consumes one probe, and the clock read in the loop body is the
    one of the same probe. *)

Definition ULTRASONIC_CONVERSION : Q := 79.

Record probe : Type := mkProbe {
  echo : bool;      (* gpio.input(ECHO) == 1 *)
  shared_mode : Z;  (* the global [mode] at this moment *)
  clock : Q         (* time.time() at this moment *)
}.

Definition world : Type := nat -> probe.

(** Python's [round(x, 2)] on an exact number: nearest multiple of 1/100,
    ties to the even one. *)
Definition round2 (x : Q) : Q :=
  let y := x * 100 in
  let n := Qfloor y in
  let r := y - inject_Z n in
  let m :=
    if Qltb r (1 # 2) then n
    else if Qltb (1 # 2) r then (n + 1)%Z
    else if Z.even n then n else (n + 1)%Z in
  m # 100.

(** Line 171: [while gpio.input(ECHO)==0 and old_mode == mode:
    pulse_start = time.time()].  Returns the index of the next probe and the
    last value given to [pulse_start]. *)
Fixpoint wait_echo_high (fuel : nat) (w : world) (old_mode : Z) (k : nat)
    (pulse_start : Q) : option (nat * Q) :=
  match fuel with
  | O => None
  | S fuel' =>
      if negb (echo (w k)) && (old_mode =? shared_mode (w k))%Z
      then wait_echo_high fuel' w old_mode (S k) (clock (w k))
      else Some (S k, pulse_start)
  end.

(** Line 174: [while gpio.input(ECHO)==1 and old_mode == mode:
    pulse_end = time.time()]. *)
Fixpoint wait_echo_low (fuel : nat) (w : world) (old_mode : Z) (k : nat)
    (pulse_end : Q) : option (nat * Q) :=
  match fuel with
  | O => None
  | S fuel' =>
      if echo (w k) && (old_mode =? shared_mode (w k))%Z
      then wait_echo_low fuel' w old_mode (S k) (clock (w k))
      else Some (S k, pulse_end)
  end.

(** Lines 170-177: the loop that repeats the two waits until the duration is
    positive or the mode has changed.  Returns the index of the next probe
    and [pulse_duration]. *)
Fixpoint duration_loop (fuel : nat) (w : world) (old_mode : Z) (k : nat)
    (pulse_start pulse_end pulse_duration : Q) : option (nat * Q) :=
  match fuel with
  | O => None
  | S fuel' =>
      if Qle_bool pulse_duration 0 && (old_mode =? shared_mode (w k))%Z
      then
        match wait_echo_high fuel' w old_mode (S k) pulse_start with
        | None => None
        | Some (k1, pulse_start) =>
            match wait_echo_low fuel' w old_mode k1 pulse_end with
            | None => None
            | Some (k2, pulse_end) =>
                duration_loop fuel' w old_mode k2 pulse_start pulse_end
                  ((pulse_end - pulse_start) * 1000000)
            end
        end
      else Some (S k, pulse_duration)
  end.

(** [sonic()] entered at probe [k]: the index of the first probe after the
    call, and the pair [(dtime, distance)] it returns. *)
Definition sonic (fuel : nat) (w : world) (k : nat) : option (nat * (Q * Q)) :=
  let old_mode := shared_mode (w k) in
  let pulse_start := 0 in
  let pulse_end := 0 in
  let pulse_duration := -(1) in
  match duration_loop fuel w old_mode (S k) pulse_start pulse_end
          pulse_duration with
  | None => None
  | Some (k', pulse_duration) =>
      let dtime := clock (w k') in
      let distance := pulse_duration / ULTRASONIC_CONVERSION in
      let distance := round2 distance in
      Some (S k', (dtime, distance))
  end.

(** ** Data frames

    The part of pandas that [run_mode] uses.  A cell is a Python string, a
    number, an index label turned into a value by [reset_index], or the
    filler that [concat] puts where a frame lacks a column. *)

Inductive cell : Type :=
| Str (s : string)
| Num (q : Q)
| Idx (i : nat)
| Missing.

Definition row : Type := (nat * list cell)%type.

Record DataFrame : Type := mkDF {
  columns : list string;
  rows : list row
}.

Inductive exn : Type := KeyError | TypeError.

Inductive result (A : Type) : Type :=
| Ok (a : A)
| Err (e : exn).
Arguments Ok {A} a.
Arguments Err {A} e.

Definition has_column (d : DataFrame) (c : string) : bool :=
  existsb (String.eqb c) (columns d).

Fixpoint cell_at (cols : list string) (cells : list cell) (c : string) : cell :=
  match cols, cells with
  | c' :: cols', x :: cells' =>
      if String.eqb c c' then x else cell_at cols' cells' c
  | _, _ => Missing
  end.

Definition reindex (from to : list string) (cells : list cell) : list cell :=
  map (cell_at from cells) to.

Definition relabel (l : list (list cell)) : list row :=
  combine (seq 0 (List.length l)) l.

(** [pd.DataFrame(columns=cols)] and [pd.DataFrame()]. *)
Definition df_new (cols : list string) : DataFrame := mkDF cols [].
Definition df_blank : DataFrame := mkDF [] [].

(** [pd.DataFrame.from_dict([d])]: one row, labelled 0. *)
Definition from_dict (d : list (string * cell)) : DataFrame :=
  mkDF (map fst d) [(0%nat, map snd d)].

(** [pd.concat([a, b], ignore_index=True, sort=False)]. *)
Definition concat (a b : DataFrame) : DataFrame :=
  let cols :=
    columns a ++ filter (fun c => negb (has_column a c)) (columns b) in
  mkDF cols
    (relabel (map (fun r => reindex (columns a) cols (snd r)) (rows a) ++
              map (fun r => reindex (columns b) cols (snd r)) (rows b))).

(** [d[wanted]] for a list of column names. *)
Definition df_select (wanted : list string) (d : DataFrame)
  : result DataFrame :=
  if forallb (has_column d) wanted
  then Ok (mkDF wanted
             (map (fun r => (fst r, reindex (columns d) wanted (snd r)))
                (rows d)))
  else Err KeyError.

(** [d[d.columns[1:]]]: a frame always has its own columns. *)
Definition drop_first_column (d : DataFrame) : DataFrame :=
  mkDF (tl (columns d)) (map (fun r => (fst r, tl (snd r))) (rows d)).

(** [d.reset_index()]: the old labels become the first column. *)
Definition reset_index (d : DataFrame) : DataFrame :=
  let name := if has_column d "index" then "level_0"%string
              else "index"%string in
  mkDF (name :: columns d) (relabel (map (fun r => Idx (fst r) :: snd r) (rows d))).

(** The sort key of a row: the string in column [by]. *)
Definition sort_key (cols : list string) (by_ : string) (r : row)
  : option string :=
  match cell_at cols (snd r) by_ with
  | Str s => Some s
  | _ => None
  end.

Definition key_string (cols : list string) (by_ : string) (r : row) : string :=
  match sort_key cols by_ r with
  | Some s => s
  | None => EmptyString
  end.

Fixpoint insert_row (key : row -> string) (r : row) (l : list row)
  : list row :=
  match l with
  | [] => [r]
  | x :: l' =>
      if String.leb (key r) (key x) then r :: l
      else x :: insert_row key r l'
  end.

Fixpoint sort_rows_by (key : row -> string) (l : list row) : list row :=
  match l with
  | [] => []
  | r :: l' => insert_row key r (sort_rows_by key l')
  end.

(** [d.sort_values(by=[by_])] on a column of strings; the order pandas
    gives to rows with equal keys is not fixed, the one chosen here keeps
    them as they were. *)
Definition sort_values (by_ : string) (d : DataFrame) : result DataFrame :=
  if has_column d by_ then
    if forallb (fun r => match sort_key (columns d) by_ r with
                         | Some _ => true
                         | None => false
                         end) (rows d)
    then Ok (mkDF (columns d)
               (sort_rows_by (key_string (columns d) by_) (rows d)))
    else Err TypeError
  else Err KeyError.

(** The lines [d.to_csv(..., index=False, header=h)] produces. *)
Definition csv_lines (header : bool) (d : DataFrame) : list (list cell) :=
  (if header then [map Str (columns d)] else []) ++ map snd (rows d).

(** Files by name; a file that was never written has no line. *)
Definition fsys : Type := string -> list (list cell).

(** Opening with [mode="a"] and writing [lines]. *)
Definition write_append (disk : fsys) (name : string)
    (lines : list (list cell)) : fsys :=
  fun n => if String.eqb n name then disk n ++ lines else disk n.

(** ** The sampling loop [run_mode] (lines 465-684)

    What a session reads from its surroundings is given: the formatted
    instants, the potentiometer percentages and the distances.  Statements
    that only drive the buzzer, the colour LED or the console neither read
    nor write the variables below and are left out. *)

Definition COLUMNS : list string :=
  ["Date and Time"; "Potentiometer %"; "Distance"]%string.

Record session : Type := mkSession {
  monitor : bool;
  record : bool;
  filename : string;
  data : DataFrame;    (* the buffer *)
  disk : fsys
}.

Definition set_data (s : session) (d : DataFrame) : session :=
  mkSession (monitor s) (record s) (filename s) d (disk s).

Definition set_disk (s : session) (f : fsys) : session :=
  mkSession (monitor s) (record s) (filename s) (data s) f.

(** The state a statement leaves, or the exception it raises and the state
    it raises it in. *)
Inductive outcome : Type :=
| Done (s : session)
| Raised (e : exn) (s : session).

Definition stmt : Type := session -> outcome.

Definition then_ (a b : stmt) : stmt :=
  fun s => match a s with
           | Done s' => b s'
           | Raised e s' => Raised e s'
           end.
Infix ";;" := then_ (at level 61, left associativity).

Definition assign_data (f : DataFrame -> result DataFrame) : stmt :=
  fun s => match f (data s) with
           | Ok d => Done (set_data s d)
           | Err e => Raised e s
           end.

(** Lines 501-503: the file name made of slices of [time.ctime()]. *)
Definition data_filename (ctime : string) : string :=
  ("//home//pi/Documents//data_" ++
   substring 4 3 ctime ++ substring 8 2 ctime ++ substring 20 4 ctime ++
   "_" ++
   substring 11 2 ctime ++ substring 14 2 ctime ++ substring 17 2 ctime ++
   ".csv")%string.

(** Lines 497-521: the start of a session under mode [cmode]. *)
Definition open_session (cmode : Z) (ctime : string) (files : fsys)
  : session :=
  let '(monitor, record) := mode_settings cmode in
  let filename := data_filename ctime in
  let header := df_new COLUMNS in
  let files :=
    if record then write_append files filename (csv_lines true header)
    else files in
  mkSession monitor record filename (df_new COLUMNS) files.

Record pot_reading : Type := mkPot {
  pot_time : string;     (* date_time of line 538 *)
  pot_percent : Q
}.

Record range_reading : Type := mkRange {
  range_time : string;   (* date_time of line 617 *)
  distance : Q
}.

(** Line 554: the dictionary of a position reading. *)
Definition pot_dict (p : pot_reading) : list (string * cell) :=
  [("Date and Time"%string, Str (pot_time p));
   ("Potentiometer %"%string, Num (pot_percent p));
   ("Distance"%string, Str "NaN")].

(** Lines 555-559. *)
Definition position_sample (p : pot_reading) (s : session) : session :=
  let new_data := from_dict (pot_dict p) in
  if record s then set_data s (concat (data s) new_data) else s.

(** Lines 619-622: the dictionary of a range reading; a distance above one
    metre is replaced by the string ['NaN']. *)
Definition range_dict (r : range_reading) : list (string * cell) :=
  let distance :=
    if Qgtb (distance r) 100 then Str "NaN" else Num (distance r) in
  [("Date and Time"%string, Str (range_time r));
   ("Potentiometer %"%string, Str "NaN");
   ("Distance"%string, distance)].

(** Lines 623-627. *)
Definition range_sample (r : range_reading) (s : session) : session :=
  let new_data := from_dict (range_dict r) in
  if record s then set_data s (concat (data s) new_data) else s.

(** The statements of the three write-outs, one definition per line of the
    source. *)
Definition arrange : stmt :=                      (* lines 640, 657, 675 *)
  assign_data (df_select COLUMNS).
Definition sort_by_time : stmt :=                 (* lines 642, 658, 676 *)
  assign_data (sort_values "Date and Time").
Definition renumber : stmt :=                     (* lines 659, 677 *)
  assign_data (fun d => Ok (reset_index d)).
Definition strip_first : stmt :=                  (* lines 644, 660, 678 *)
  assign_data (fun d => Ok (drop_first_column d)).
Definition write_rows : stmt :=                   (* lines 646, 665, 681 *)
  fun s => Done (set_disk s
                   (write_append (disk s) (filename s)
                      (csv_lines false (data s)))).
Definition clear_buffer : stmt :=                 (* line 648 *)
  fun s => Done (set_data s df_blank).

(** Lines 636-648: the write-out at the size threshold. *)
Definition flush_buffer : stmt :=
  arrange ;; sort_by_time ;; strip_first ;; write_rows ;; clear_buffer.

Definition buffer_size (s : session) : nat := List.length (rows (data s)).

Definition check_buffer : stmt :=
  fun s => if (BUFFER_SIZE <? buffer_size s)%nat then flush_buffer s
           else Done s.

(** Lines 526-651: one pass of the body of [while old_mode == mode]: the
    position readings taken while waiting, the range reading, the size
    check. *)
Definition iteration (pots : list pot_reading) (r : range_reading) : stmt :=
  fun s =>
    check_buffer
      (range_sample r (fold_left (fun s p => position_sample p s) pots s)).

Fixpoint iterations (its : list (list pot_reading * range_reading)) : stmt :=
  match its with
  | [] => fun s => Done s
  | (pots, r) :: its' => iteration pots r ;; iterations its'
  end.

(** Lines 656-666: the write-out that ends a session when the mode
    changes. *)
Definition close_session : stmt :=
  arrange ;; sort_by_time ;; renumber ;; strip_first ;;
  (fun s => if record s then write_rows s else Done s).

(** Lines 669-684: the handler of [KeyboardInterrupt]. *)
Definition on_interrupt : stmt :=
  fun s =>
    if record s
    then (arrange ;; sort_by_time ;; renumber ;; strip_first ;; write_rows) s
    else Done s.

(** How a session ends: the mode changes, or the operator interrupts the
    program between two passes of the sampling loop. *)
Inductive ending : Type := ModeChanged | Interrupted.

Definition finish (e : ending) : stmt :=
  match e with
  | ModeChanged => close_session
  | Interrupted => on_interrupt
  end.

(** One session from its start to its end. *)
Definition run_session (cmode : Z) (ctime : string) (files : fsys)
    (its : list (list pot_reading * range_reading)) (e : ending) : outcome :=
  (iterations its ;; finish e) (open_session cmode ctime files).

Definition final_state (o : outcome) : session :=
  match o with
  | Done s => s
  | Raised _ s => s
  end.

(** ** Vocabulary of the statements about files *)

(** The cells of the buffered rows, without their labels. *)
Definition readings (s : session) : list (list cell) :=
  map snd (rows (data s)).

Definition pot_cells (p : pot_reading) : list cell := map snd (pot_dict p).
Definition range_cells (r : range_reading) : list cell :=
  map snd (range_dict r).

(** The cells a pass of the sampling loop appends to the buffer. *)
Definition pass_cells (pots : list pot_reading) (r : range_reading)
  : list (list cell) :=
  map pot_cells pots ++ [range_cells r].

Definition header_line : list cell := map Str COLUMNS.

(** The instant a line starts with. *)
Definition timestamp (line : list cell) : string :=
  match line with
  | Str t :: _ => t
  | _ => EmptyString
  end.

Definition time_ordered (a b : list cell) : Prop :=
  String.leb (timestamp a) (timestamp b) = true.

(** The last two cells of a line: the potentiometer percentage and the
    distance. *)
Definition payload (line : list cell) : list cell :=
  skipn (List.length line - 2) line.

Definition is_number (c : cell) : Prop := exists q, c = Num q.

(** A position value with no distance, or no position value with a distance
    that is a number of at most 100 or ['NaN']. *)
Definition payload_ok (pl : list cell) : Prop :=
  exists p d, pl = [p; d] /\
    ((is_number p /\ d = Str "NaN") \/
     (p = Str "NaN" /\ ((exists q, d = Num q /\ q <= 100) \/ d = Str "NaN"))).

(** A line with the three columns of the file. *)
Definition reading_line (line : list cell) : Prop :=
  exists t p d, line = [Str t; p; d] /\ payload_ok [p; d].


(** The lines of a frame once sorted by its first column. *)
Definition sorted_lines (rs : list row) : list (list cell) :=
  map snd (sort_rows_by (key_string COLUMNS "Date and Time") rs).

(** The buffer between two passes of the sampling loop: the three columns
    and rows of readings, or the frame without columns left by line 648. *)
Definition buffer_ok (d : DataFrame) : Prop :=
  (columns d = COLUMNS \/ (columns d = [] /\ rows d = [])) /\
  Forall (fun r => reading_line (snd r)) (rows d).

(** What holds of a recording session between two passes of its sampling
    loop: [files] are the files when it started, [name] is its file. *)
Definition session_ok (files : fsys) (name : string) (s : session) : Prop :=
  record s = true /\
  filename s = name /\
  buffer_ok (data s) /\
  (forall other, other <> name -> disk s other = files other) /\
  exists flushed,
    disk s name = (files name ++ header_line :: flushed)%list /\
    ~ In header_line flushed /\
    Forall payload_ok (map payload flushed).

(** * Sample surroundings

    Concrete inputs on which the results below are exercised. *)

(** An echo line stuck low, and a mode that changes at the fifth probe. *)
Definition stuck_echo : world :=
  fun j => mkProbe false (if (j <? 5)%nat then MS_MODE else ORD_MODE) 0.


(** The four gestures of the specification, as button signals over
    milliseconds counted from the press. *)
Definition single_click (x : Z) : bool := (x <? 300)%Z.
Definition long_hold (x : Z) : bool := (x <? 2500)%Z.
Definition double_click (x : Z) : bool :=
  (x <? 300)%Z || ((500 <=? x)%Z && (x <? 800)%Z).
Definition short_hold (x : Z) : bool := (x <? 1500)%Z.

(** A double click whose second press is held for one second. *)
Definition click_then_hold (x : Z) : bool :=
  (x <? 300)%Z || ((500 <=? x)%Z && (x <? 1500)%Z).

(** A double click whose second press is held for good. *)
Definition click_then_long_hold (x : Z) : bool :=
  (x <? 300)%Z || (500 <=? x)%Z.

(** A recording session whose buffer holds 250 range readings. *)
Definition no_files : fsys := fun _ => [].
Definition sample_ctime : string := "Wed Nov  4 00:56:12 2026".
Definition sample_range : range_reading :=
  mkRange "2026-11-04 00:56:13.100" 12.
Definition sample_pot : pot_reading :=
  mkPot "2026-11-04 00:56:13.050" 40.
Definition far_range : range_reading :=
  mkRange "2026-11-04 00:56:13.100" 150.

Definition session_250 : session :=
  final_state
    (iterations (repeat ([], sample_range) 250)
       (open_session RDM_MODE sample_ctime no_files)).


(** * The rest of the program *)

(** ** [in_range] (lines 251-268) *)

Definition in_range (distance : Q) : bool :=
  if Qgeb distance MIN_DIST && Qle_bool distance MAX_DIST then true
  else false.

(** ** The buzzer control of [run_mode] (lines 573-614)

    What [run_mode] does with the buzzer after a range reading when
    [monitor] is set.  [too_close] and [beep_t0] are the two locals it
    keeps from one pass to the next; [beep_t0] has no value before its
    first assignment, and reading it then is the error [None] below.  The
    pass reads the clock twice (lines 607 and 611) and compares the shared
    mode with [old_mode] three times (lines 604, 607 and 611). *)

Definition BEEP_INTERVAL : Q := 1 # 2.

Record beeper : Type := mkBeeper {
  too_close : bool;
  beep_t0 : option Q
}.

Record pass_clock : Type := mkPassClock {
  dist_t0 : Q;       (* the instant the pass started at *)
  time_607 : Q;      (* time.time() on line 607 *)
  time_611 : Q;      (* time.time() on line 611 *)
  same_604 : bool;   (* old_mode == mode on line 604 *)
  same_607 : bool;
  same_611 : bool
}.

Definition monitor_buzzer (distance : Q) (c : pass_clock) (b : beeper)
  : option (list buzz_call * beeper) :=
  if Qgtb distance MAX_DIST then
    Some ([BuzzStop], mkBeeper false (beep_t0 b))
  else if in_range distance then
    Some ([BuzzStart DUTY_CYCLE], mkBeeper false (beep_t0 b))
  else if negb (too_close b) then
    Some ([], mkBeeper true (Some (dist_t0 c)))
  else
    let calls := [BuzzStop; ChangeFrequency MAX_FREQ; BuzzStart DUTY_CYCLE] in
    if Qltb distance MIN_DIST && same_604 c then
      match beep_t0 b with
      | None => None
      | Some t0 =>
          let calls :=
            if Qgtb (time_607 c) (t0 + BEEP_INTERVAL)
               && Qltb distance MIN_DIST && same_607 c
            then (calls ++ [BuzzStop])%list else calls in
          if Qgtb (time_611 c) (t0 + 2 * BEEP_INTERVAL)
             && Qltb distance MIN_DIST && same_611 c
          then Some ((calls ++
                      [BuzzStart DUTY_CYCLE; ChangeFrequency MAX_FREQ])%list,
                     mkBeeper (too_close b) (Some (t0 + 2 * BEEP_INTERVAL)))
          else Some (calls, b)
      end
    else Some (calls, b).

(** Whether the buzzer sounds after a list of calls, when it did ([was])
    before them: the last [start] or [stop] decides. *)
Fixpoint sounding (was : bool) (calls : list buzz_call) : bool :=
  match calls with
  | [] => was
  | BuzzStart _ :: rest => sounding true rest
  | BuzzStop :: rest => sounding false rest
  | ChangeFrequency _ :: rest => sounding was rest
  end.

(** The two locals are in step: once [too_close] is set, [beep_t0] has a
    value. *)
Definition armed (b : beeper) : Prop :=
  too_close b = true -> exists t, beep_t0 b = Some t.

(** ** Runs of [get_mode] that do not call [get_mode] again

    The same steps as [run]; the result is [None] when the handler is about
    to re-enter itself (line 434) or when the fuel is spent. *)
Fixpoint run_direct (tick : Z) (pressed : Z -> bool) (fuel : nat)
    (c : pc * gstate) : option gstate :=
  match fuel with
  | O => None
  | S fuel' =>
      match fst c with
      | Returned => Some (snd c)
      | _ =>
          let c' := step tick pressed c in
          match fst c' with
          | Entry _ => None
          | _ => run_direct tick pressed fuel' c'
          end
      end
  end.

(** The console line and the LED call that announce mode [m]. *)
Definition mode_report (m : Z) : list effect :=
  if (m =? MS_MODE)%Z then [Print "MS mode"; RegledOff]
  else if (m =? RDM_MODE)%Z then [Print "RDM mode"; RegledOn]
  else if (m =? ORD_MODE)%Z then [Print "ORD Mode"; RegledBlink]
  else [].

(** What the handler has done to the mode and to its outputs between two
    states: nothing, or its outputs have grown and end with the report of
    the mode now active. *)
Definition reported (s0 s : gstate) : Prop :=
  exists more,
    out s = (out s0 ++ more)%list /\
    ((more = [] /\ mode s = mode s0) \/
     (exists before, more = (before ++ mode_report (mode s))%list /\
                     mode_report (mode s) <> [])).

(** ** Vocabulary of the statements about whole sessions *)

(** The cells of all the readings taken by a list of passes, in the order
    they are taken. *)
Definition all_cells (its : list (list pot_reading * range_reading))
  : list (list cell) :=
  flat_map (fun it => pass_cells (fst it) (snd it)) its.

(** A recording session that has taken the readings [seen]: those it has
    not written yet are in its buffer. *)
Definition session_tracks (files : fsys) (name : string)
    (seen : list (list cell)) (s : session) : Prop :=
  record s = true /\
  filename s = name /\
  buffer_ok (data s) /\
  exists flushed,
    disk s name = (files name ++ header_line :: flushed)%list /\
    Permutation (map payload flushed ++ map payload (readings s))%list
      (map payload seen).


(** An echo that is low for three probes, high for four and low again,
    with a clock that gains one millisecond per probe; and an echo that is
    already high when [sonic] starts to poll. *)
Definition clean_echo : world :=
  fun j => mkProbe ((5 <=? j)%nat && (j <? 9)%nat) MS_MODE
             (inject_Z (Z.of_nat j) / 1000).
Definition early_echo : world :=
  fun j => mkProbe (j <? 6)%nat MS_MODE (inject_Z (Z.of_nat j) / 1000).

(** A mode that changes right after [sonic] has read it. *)
Definition changed_at_once : world :=
  fun j => mkProbe false (if (j <? 1)%nat then RDM_MODE else MS_MODE) 0.


(** A recording session whose buffer holds one range reading. *)
Definition session_1 : session :=
  range_sample sample_range (open_session RDM_MODE sample_ctime no_files).


(** ** The outer loop of [run_mode] (lines 479-666)

    [while True] starts a new session each time the mode changes.  A run
    that goes through some sessions is given by what each of them reads:
    the mode on line 498, [time.ctime()] on line 501, and its passes.  The
    locals of a session are all assigned again before the next one uses
    them, so that only the files pass from one session to the next.  An
    exception that the end of a session raises is not caught and stops the
    run. *)
Definition session_plan : Type :=
  (Z * string * list (list pot_reading * range_reading))%type.

Fixpoint run_sessions (plan : list session_plan) (files : fsys)
  : option exn * fsys :=
  match plan with
  | [] => (None, files)
  | (cmode, ctime, its) :: rest =>
      match run_session cmode ctime files its ModeChanged with
      | Done s => run_sessions rest (disk s)
      | Raised e s => (Some e, disk s)
      end
  end.

(** The sessions of a plan that record into the file [name]. *)
Definition writes_to (name : string) (p : session_plan) : bool :=
  let '(cmode, ctime, _) := p in
  snd (mode_settings cmode) && String.eqb (data_filename ctime) name.

(** What a recording session leaves in its file: the header, then lines
    that carry the readings of its passes, each one once. *)
Definition session_block (block : list (list cell)) (p : session_plan)
  : Prop :=
  exists lines,
    block = header_line :: lines /\
    Permutation (map payload lines) (map payload (all_cells (snd p))).

(** Two sessions that start in the same second of the clock. *)
Definition same_second_plan : list session_plan :=
  [(ORD_MODE, sample_ctime, [([], sample_range)]);
   (RDM_MODE, "Thu Nov  4 00:56:12 2026"%string, [([sample_pot], far_range)])].

(** * Properties *)

(** ** Comparisons *)

Lemma Qgtb_true x y : Qgtb x y = true <-> y < x.
Proof.
  unfold Qgtb. rewrite negb_true_iff. split; intro H.
  - apply Qnot_le_lt. intro A. apply Qle_bool_iff in A. congruence.
  - destruct (Qle_bool x y) eqn:E; [|reflexivity].
    apply Qle_bool_iff in E. lra.
Qed.

Lemma Qgtb_false x y : Qgtb x y = false <-> x <= y.
Proof.
  unfold Qgtb. rewrite negb_false_iff. apply Qle_bool_iff.
Qed.

Lemma Qltb_true x y : Qltb x y = true <-> x < y.
Proof. unfold Qltb. apply (Qgtb_true y x). Qed.

Lemma Qltb_false x y : Qltb x y = false <-> y <= x.
Proof. unfold Qltb. apply (Qgtb_false y x). Qed.

Lemma Qgeb_true x y : Qgeb x y = true <-> y <= x.
Proof. unfold Qgeb. apply Qle_bool_iff. Qed.

Lemma Qle_bool_false x y : Qle_bool x y = false <-> y < x.
Proof.
  rewrite <- (Qgtb_true x y). unfold Qgtb.
  destruct (Qle_bool x y); simpl; split; congruence.
Qed.

(** ** The tone map *)

Lemma frequency_far (d : Q) : MAX_DIST < d -> frequency d = Freq None.
Proof.
  intro H. unfold frequency.
  apply Qgtb_true in H. rewrite H. reflexivity.
Qed.

Lemma frequency_near (d : Q) :
  d < MIN_DIST -> frequency d = Freq (Some MAX_FREQ).
Proof.
  intro H. unfold frequency.
  assert (F : Qgtb d MAX_DIST = false)
    by (apply Qgtb_false; unfold MIN_DIST, MAX_DIST in *; lra).
  apply Qltb_true in H. rewrite F, H. reflexivity.
Qed.

Lemma frequency_mid (d : Q) :
  MIN_DIST <= d <= MAX_DIST ->
  frequency d =
  Freq (Some (MAX_FREQ -
              (d - MIN_DIST) / (MAX_DIST - MIN_DIST) * (MAX_FREQ - MIN_FREQ))).
Proof.
  intros [Hlo Hhi]. unfold frequency.
  assert (F : Qgtb d MAX_DIST = false) by (apply Qgtb_false; exact Hhi).
  assert (G : Qltb d MIN_DIST = false) by (apply Qltb_false; exact Hlo).
  assert (A : Qle_bool d MAX_DIST = true) by (apply Qle_bool_iff; exact Hhi).
  assert (B : Qgeb d MIN_DIST = true) by (apply Qgeb_true; exact Hlo).
  rewrite F, G, A, B. reflexivity.
Qed.

(** The interpolation as a plain linear expression. *)
Lemma interpolation_linear (d : Q) :
  MAX_FREQ - (d - MIN_DIST) / (MAX_DIST - MIN_DIST) * (MAX_FREQ - MIN_FREQ)
  == 2475 - (475 # 4) * d.
Proof. unfold MAX_FREQ, MIN_FREQ, MAX_DIST, MIN_DIST. field. Qed.

Lemma frequency_bound (d : Q) :
  frequency d = Freq None \/
  exists f, frequency d = Freq (Some f) /\ MIN_FREQ <= f <= MAX_FREQ.
Proof.
  destruct (Qlt_le_dec MAX_DIST d) as [Hfar | Hle].
  - left. apply frequency_far, Hfar.
  - right. destruct (Qlt_le_dec d MIN_DIST) as [Hnear | Hge].
    + exists MAX_FREQ. split; [apply frequency_near, Hnear|].
      unfold MIN_FREQ, MAX_FREQ. lra.
    + eexists. split; [apply frequency_mid; split; assumption|].
      rewrite interpolation_linear.
      unfold MIN_FREQ, MAX_FREQ, MIN_DIST, MAX_DIST in *. lra.
Qed.

(** C1. For every distance [d]: above [MAX_DIST] the frequency is [None];
    below [MIN_DIST] it is [MAX_FREQ]; on [[MIN_DIST, MAX_DIST]] it is the
    linear interpolation of the source, which is 2000 at 4, 100 at 20, and
    does not increase when the distance grows. *)
Theorem frequency_spec (d : Q) :
  (MAX_DIST < d -> frequency d = Freq None) /\
  (d < MIN_DIST -> frequency d = Freq (Some MAX_FREQ)) /\
  (MIN_DIST <= d <= MAX_DIST ->
   frequency d =
   Freq (Some (MAX_FREQ -
               (d - MIN_DIST) / (MAX_DIST - MIN_DIST) *
               (MAX_FREQ - MIN_FREQ)))) /\
  (exists f, frequency 4 = Freq (Some f) /\ f == 2000) /\
  (exists f, frequency 20 = Freq (Some f) /\ f == 100) /\
  (forall d', MIN_DIST <= d -> d <= d' -> d' <= MAX_DIST ->
     exists f f', frequency d = Freq (Some f) /\
                  frequency d' = Freq (Some f') /\ f' <= f).
Proof.
  split; [apply frequency_far|].
  split; [apply frequency_near|].
  split; [apply frequency_mid|].
  split; [eexists; split; [reflexivity | reflexivity]|].
  split; [eexists; split; [reflexivity | reflexivity]|].
  intros d' Hlo Hle Hhi.
  do 2 eexists.
  split; [apply frequency_mid; split; [exact Hlo | lra]|].
  split; [apply frequency_mid; split; [lra | exact Hhi]|].
  rewrite !interpolation_linear. lra.
Qed.

Lemma frequency_spec_witness :
  frequency 25 = Freq None /\
  frequency 1 = Freq (Some MAX_FREQ) /\
  (exists f f', frequency 8 = Freq (Some f) /\
                frequency 12 = Freq (Some f') /\ f' <= f).
Proof.
  split; [|split].
  - apply (frequency_spec 25). reflexivity.
  - apply (frequency_spec 1). reflexivity.
  - apply (frequency_spec 8); unfold MIN_DIST, MAX_DIST; lra.
Defined.

(** ** Truthiness of the frequency *)

Lemma truthy_positive (f : Q) : 0 < f -> truthy (Some f) = true.
Proof.
  intro H. simpl. apply negb_true_iff.
  destruct (Qeq_bool f 0) eqn:E; [|reflexivity].
  apply Qeq_bool_iff in E. lra.
Qed.

(** C10. [frequency] gives [None] or a number between [MIN_FREQ] and
    [MAX_FREQ], never 0 and never an unbound result; so testing the
    truthiness of [freq] is testing [freq is not None], in [buzzer] and in
    [run_mode]. *)
Theorem frequency_truthy (d : Q) :
  (exists freq,
     frequency d = Freq freq /\
     (freq = None \/
      exists f, freq = Some f /\ MIN_FREQ <= f <= MAX_FREQ /\ ~ f == 0) /\
     truthy freq = is_not_None freq) /\
  buzzer d = buzzer_with is_not_None d /\
  tone_update d = tone_update_with is_not_None d.
Proof.
  assert (T : forall freq, frequency d = Freq freq ->
                           truthy freq = is_not_None freq).
  { intros freq E. destruct freq as [f|]; [|reflexivity].
    destruct (frequency_bound d) as [N | [f' [E' [Hlo _]]]];
      [congruence|].
    assert (f = f') by congruence. subst f'.
    apply truthy_positive. unfold MIN_FREQ in Hlo. lra. }
  split.
  - destruct (frequency_bound d) as [N | [f [E [Hlo Hhi]]]].
    + exists None. split; [exact N|]. split; [left; reflexivity | reflexivity].
    + exists (Some f). split; [exact E|]. split.
      * right. exists f. split; [reflexivity|].
        split; [split; assumption|]. unfold MIN_FREQ in Hlo. lra.
      * apply T, E.
  - unfold buzzer, tone_update, buzzer_with, tone_update_with.
    destruct (frequency d) as [freq|] eqn:E; [|split; reflexivity].
    specialize (T freq eq_refl).
    destruct freq as [f|]; [|split; reflexivity].
    rewrite T. split; reflexivity.
Qed.

(** ** The colour map *)

Ltac bool_to_Q :=
  repeat match goal with
    | H : (_ && _)%bool = true |- _ => apply andb_true_iff in H; destruct H
    | H : (_ && _)%bool = false |- _ => apply andb_false_iff in H; destruct H
    | H : Qle_bool _ _ = true |- _ => apply Qle_bool_iff in H
    | H : Qle_bool _ _ = false |- _ => apply Qle_bool_false in H
    | H : Qltb _ _ = true |- _ => apply Qltb_true in H
    | H : Qltb _ _ = false |- _ => apply Qltb_false in H
    | H : Qgtb _ _ = true |- _ => apply Qgtb_true in H
    | H : Qgtb _ _ = false |- _ => apply Qgtb_false in H
    end.

Lemma sixth_1 : 100 * 1 / 6 == 50 # 3. Proof. reflexivity. Qed.
Lemma sixth_2 : 100 * 2 / 6 == 100 # 3. Proof. reflexivity. Qed.
Lemma sixth_3 : 100 * 3 / 6 == 50. Proof. reflexivity. Qed.
Lemma sixth_4 : 100 * 4 / 6 == 200 # 3. Proof. reflexivity. Qed.
Lemma sixth_5 : 100 * 5 / 6 == 250 # 3. Proof. reflexivity. Qed.
Lemma five_sixths : 5 / 6 == 5 # 6. Proof. reflexivity. Qed.

Ltac sixths :=
  repeat match goal with
    | H : context [100 * 1 / 6] |- _ => rewrite sixth_1 in H
    | H : context [100 * 2 / 6] |- _ => rewrite sixth_2 in H
    | H : context [100 * 3 / 6] |- _ => rewrite sixth_3 in H
    | H : context [100 * 4 / 6] |- _ => rewrite sixth_4 in H
    | H : context [100 * 5 / 6] |- _ => rewrite sixth_5 in H
    | H : context [5 / 6] |- _ => rewrite five_sixths in H
    end.

(** The tests of the chain, read as intervals of the rescaled percentage. *)
Lemma color_segment_cases (x : Q) :
  match color_segment x with
  | Seg1 => x <= 50 # 3
  | Seg2 => 50 # 3 < x <= 100 # 3
  | Seg3 => 100 # 3 < x <= 50
  | Seg4 => 50 < x <= 200 # 3
  | Seg5 => 200 # 3 < x <= 250 # 3
  | Seg6 => 250 # 3 < x
  | NoSegment => False
  end.
Proof.
  unfold color_segment.
  destruct (Qle_bool x (100 * 1 / 6)) eqn:E1; [bool_to_Q; sixths; lra|].
  destruct (Qltb (100 * 1 / 6) x && Qle_bool x (100 * 2 / 6)) eqn:E2;
    [bool_to_Q; sixths; lra|].
  destruct (Qltb (100 * 2 / 6) x && Qle_bool x (100 * 3 / 6)) eqn:E3;
    [bool_to_Q; sixths; lra|].
  destruct (Qltb (100 * 3 / 6) x && Qle_bool x (100 * 4 / 6)) eqn:E4;
    [bool_to_Q; sixths; lra|].
  destruct (Qltb (100 * 4 / 6) x && Qle_bool x (100 * 5 / 6)) eqn:E5;
    [bool_to_Q; sixths; lra|].
  destruct (Qgtb x (5 / 6)) eqn:E6; bool_to_Q; sixths; lra.
Qed.

Lemma ramp_linear (y : Q) : y / (100 * 1 / 6) == y * (3 # 50).
Proof. field. Qed.

Lemma scaled_linear (p : Q) : scaled p == (3 # 4) * p.
Proof. unfold scaled, VIOLET_RATIO. field. Qed.

(** On each segment the three channels stay between 0 and 1, as long as
    the rescaled percentage is not negative and not beyond the sixth
    segment. *)
Lemma segment_color_in_unit (x : Q) :
  0 <= x <= 100 ->
  exists c, segment_color (color_segment x) x = Some c /\ rgb_in_unit c.
Proof.
  intros [Hlo Hhi].
  pose proof (color_segment_cases x) as C.
  destruct (color_segment x); simpl; [| | | | | |contradiction];
    eexists; (split; [reflexivity|]);
    unfold rgb_in_unit, in_unit;
    rewrite ?ramp_linear, ?sixth_1, ?sixth_2, ?sixth_3, ?sixth_4, ?sixth_5;
    repeat split; lra.
Qed.



(** C7. For a percentage between 0 and 100 the rescaled value is at most
    [100*5/6], the branch taken is one of the first five, and so the branch
    guarded by [percent > 5/6] is never the one that runs. *)
Theorem get_color_sixth_branch_unused (p : Q) :
  0 <= p <= 100 ->
  scaled p <= 100 * 5 / 6 /\
  In (color_segment (scaled p)) [Seg1; Seg2; Seg3; Seg4; Seg5] /\
  color_segment (scaled p) <> Seg6 /\
  get_color p = segment_color (color_segment (scaled p)) (scaled p) /\
  get_color p <> None.
Proof.
  intros [Hlo Hhi].
  assert (B : scaled p <= 250 # 3) by (rewrite scaled_linear; lra).
  split; [rewrite sixth_5; exact B|].
  pose proof (color_segment_cases (scaled p)) as C.
  destruct (color_segment (scaled p)) eqn:E;
    try contradiction; try lra;
    (split; [simpl; tauto|]);
    (split; [discriminate|]);
    (split; [unfold get_color; cbv zeta; rewrite E; reflexivity|]);
    unfold get_color; cbv zeta; rewrite E; discriminate.
Qed.

Lemma get_color_sixth_branch_unused_witness :
  color_segment (scaled 100) <> Seg6.
Proof.
  apply (get_color_sixth_branch_unused 100). split; unfold Qle; simpl; lia.
Defined.

(** ** The busy-wait of [sonic] *)

Section Sonic.

Variable w : world.
Variable old_mode : Z.

Lemma wait_echo_high_stops (fuel k : nat) (x : Q) :
  shared_mode (w k) <> old_mode ->
  wait_echo_high (S fuel) w old_mode k x = Some (S k, x).
Proof.
  intro H. simpl.
  replace (old_mode =? shared_mode (w k))%Z with false
    by (symmetry; apply Z.eqb_neq; congruence).
  rewrite andb_false_r. reflexivity.
Qed.

Lemma wait_echo_low_stops (fuel k : nat) (x : Q) :
  shared_mode (w k) <> old_mode ->
  wait_echo_low (S fuel) w old_mode k x = Some (S k, x).
Proof.
  intro H. simpl.
  replace (old_mode =? shared_mode (w k))%Z with false
    by (symmetry; apply Z.eqb_neq; congruence).
  rewrite andb_false_r. reflexivity.
Qed.

Lemma duration_loop_stops (fuel k : nat) (ps pe pd : Q) :
  shared_mode (w k) <> old_mode ->
  duration_loop (S fuel) w old_mode k ps pe pd = Some (S k, pd).
Proof.
  intro H. simpl.
  replace (old_mode =? shared_mode (w k))%Z with false
    by (symmetry; apply Z.eqb_neq; congruence).
  rewrite andb_false_r. reflexivity.
Qed.

(** From probe [n] on, the shared mode is no longer the one read at
    entry. *)
Variable n : nat.
Hypothesis changed : forall j, (n <= j)%nat -> shared_mode (w j) <> old_mode.

Lemma guard_before_change (k : nat) (b : bool) :
  b && (old_mode =? shared_mode (w k))%Z = true -> (k < n)%nat.
Proof.
  intro H. apply andb_true_iff in H. destruct H as [_ H].
  apply Z.eqb_eq in H.
  destruct (Nat.lt_ge_cases k n) as [L | G]; [exact L|].
  exfalso. apply (changed k G). congruence.
Qed.

Lemma wait_echo_high_returns (fuel : nat) :
  forall k x, (n - k < fuel)%nat ->
  exists k' x', wait_echo_high fuel w old_mode k x = Some (k', x') /\
                (k < k' <= Nat.max k n + 1)%nat.
Proof.
  induction fuel as [|fuel IH]; intros k x Hf; [lia|].
  simpl.
  destruct (negb (echo (w k)) && (old_mode =? shared_mode (w k))%Z) eqn:G.
  - apply guard_before_change in G.
    destruct (IH (S k) (clock (w k))) as [k' [x' [E B]]]; [lia|].
    exists k', x'. split; [exact E | lia].
  - exists (S k), x. split; [reflexivity | lia].
Qed.

Lemma wait_echo_low_returns (fuel : nat) :
  forall k x, (n - k < fuel)%nat ->
  exists k' x', wait_echo_low fuel w old_mode k x = Some (k', x') /\
                (k < k' <= Nat.max k n + 1)%nat.
Proof.
  induction fuel as [|fuel IH]; intros k x Hf; [lia|].
  simpl.
  destruct (echo (w k) && (old_mode =? shared_mode (w k))%Z) eqn:G.
  - apply guard_before_change in G.
    destruct (IH (S k) (clock (w k))) as [k' [x' [E B]]]; [lia|].
    exists k', x'. split; [exact E | lia].
  - exists (S k), x. split; [reflexivity | lia].
Qed.

Lemma duration_loop_returns (fuel : nat) :
  forall k ps pe pd, (n - k < fuel)%nat ->
  exists k' pd', duration_loop fuel w old_mode k ps pe pd = Some (k', pd') /\
                 (k' <= Nat.max (k + 1) (n + 3))%nat.
Proof.
  induction fuel as [|fuel IH]; intros k ps pe pd Hf; [lia|].
  simpl.
  destruct (Qle_bool pd 0 && (old_mode =? shared_mode (w k))%Z) eqn:G.
  - apply guard_before_change in G.
    destruct (wait_echo_high_returns fuel (S k) ps) as [k1 [ps1 [E1 B1]]];
      [lia|].
    rewrite E1.
    destruct (wait_echo_low_returns fuel k1 pe) as [k2 [pe1 [E2 B2]]];
      [lia|].
    rewrite E2.
    destruct (IH k2 ps1 pe1 ((pe1 - ps1) * 1000000)) as [k' [pd' [E B]]];
      [lia|].
    exists k', pd'. split; [exact E | lia].
  - exists (S k), pd. split; [reflexivity | lia].
Qed.

End Sonic.

(** C8. Each of the three loops of [sonic] tests the shared mode against
    the value read at entry on every evaluation of its condition, and
    leaves at the first evaluation that finds them different.  Hence, once
    the shared mode differs from the entry value from some probe [n] on,
    [sonic] returns, whatever the echo line does, after at most three more
    loop conditions have been evaluated. *)
Theorem sonic_abandons_on_mode_change (w : world) (k n : nat) :
  (forall j, (n <= j)%nat -> shared_mode (w j) <> shared_mode (w k)) ->
  (forall fuel old_mode i x y z,
      shared_mode (w i) <> old_mode ->
      wait_echo_high (S fuel) w old_mode i x = Some (S i, x) /\
      wait_echo_low (S fuel) w old_mode i x = Some (S i, x) /\
      duration_loop (S fuel) w old_mode i x y z = Some (S i, z)) /\
  (forall fuel, (n - k <= fuel)%nat ->
     exists k' r, sonic fuel w k = Some (k', r) /\ (k' <= n + 4)%nat).
Proof.
  intro changed. split.
  - intros fuel old_mode i x y z H.
    split; [apply wait_echo_high_stops, H|].
    split; [apply wait_echo_low_stops, H | apply duration_loop_stops, H].
  - intros fuel Hf.
    assert (K : (k < n)%nat).
    { destruct (Nat.lt_ge_cases k n) as [L | G]; [exact L|].
      exfalso. apply (changed k G). reflexivity. }
    unfold sonic.
    destruct (duration_loop_returns w (shared_mode (w k)) n changed fuel
                (S k) 0 0 (-(1))) as [k' [pd [E B]]]; [lia|].
    rewrite E. eexists. eexists. split; [reflexivity | lia].
Qed.

Lemma sonic_abandons_on_mode_change_witness :
  exists k' r, sonic 5 stuck_echo 0%nat = Some (k', r) /\ (k' <= 5 + 4)%nat.
Proof.
  refine (proj2 (sonic_abandons_on_mode_change stuck_echo 0%nat 5%nat _) 5%nat _).
  - intros j Hj. unfold stuck_echo. simpl.
    destruct (j <? 5)%nat eqn:E; [|discriminate].
    apply Nat.ltb_lt in E. lia.
  - simpl. lia.
Defined.

(** ** The gesture recogniser *)

Section GestureFacts.

Variable tick : Z.
Variable pressed : Z -> bool.
Hypothesis tick_pos : (0 < tick)%Z.

Abbreviation step' := (step tick pressed).
Abbreviation run' := (run tick pressed).
Abbreviation reaches' := (reaches tick pressed).

Lemma run_returned (fuel : nat) (s : gstate) :
  run' fuel (Returned, s) = (Returned, s).
Proof. destruct fuel; reflexivity. Qed.

Lemma reaches_trans (a b c : pc * gstate) :
  reaches' a b -> reaches' b c -> reaches' a c.
Proof.
  induction 1 as [|a b H IH]; intro K; [exact K|].
  apply reaches_next, IH, K.
Qed.

Lemma reaches_run (c : pc * gstate) (s' : gstate) :
  reaches' c (Returned, s') ->
  exists k, forall fuel, (k <= fuel)%nat -> run' fuel c = (Returned, s').
Proof.
  intro H. remember (Returned, s') as final eqn:F.
  induction H as [c | c c' H IH]; subst.
  - exists 0%nat. intros fuel _. apply run_returned.
  - destruct (IH eq_refl) as [k Hk]. exists (S k).
    intros [|fuel] Hf; [lia|].
    destruct c as [p s]. destruct p; simpl;
      try (apply Hk; lia).
    simpl in Hk. rewrite <- (Hk fuel) by lia. symmetry. apply run_returned.
Qed.

Lemma mode_switch_if_changed (m : Z) (line : string) (led : effect)
    (s : gstate) :
  mode (switch_if_changed m line led s) = m.
Proof.
  unfold switch_if_changed.
  destruct (mode s =? m)%Z eqn:E; simpl; [apply Z.eqb_eq, E | reflexivity].
Qed.

Lemma switch_if_changed_same (m : Z) (line : string) (led : effect)
    (s : gstate) :
  mode s = m -> switch_if_changed m line led s = s.
Proof.
  intro H. unfold switch_if_changed.
  replace (mode s =? m)%Z with true by (symmetry; apply Z.eqb_eq, H).
  reflexivity.
Qed.

(** *** One polling loop *)

Lemma poll_again (t0 window : Z) (want : bool) (s : gstate) :
  (now s - t0 <= window)%Z ->
  pressed (now s + tick) = negb want ->
  poll_once tick pressed t0 window want s = (Again, advance tick s).
Proof.
  intros Hin Hp. unfold poll_once, time_time, is_pressed. simpl.
  replace (now s - t0 <=? window)%Z with true
    by (symmetry; apply Z.leb_le; exact Hin).
  rewrite Hp. destruct want; reflexivity.
Qed.

Lemma poll_edge (t0 window : Z) (want : bool) (s : gstate) :
  (now s - t0 <= window)%Z ->
  pressed (now s + tick) = want ->
  poll_once tick pressed t0 window want s = (Edge, advance tick s).
Proof.
  intros Hin Hp. unfold poll_once, time_time, is_pressed. simpl.
  replace (now s - t0 <=? window)%Z with true
    by (symmetry; apply Z.leb_le; exact Hin).
  rewrite Hp, Bool.eqb_reflx. reflexivity.
Qed.

Lemma poll_expired (t0 window : Z) (want : bool) (s : gstate) :
  (window < now s - t0)%Z ->
  poll_once tick pressed t0 window want s = (Expired, advance tick s).
Proof.
  intros Hout. unfold poll_once, time_time, is_pressed. simpl.
  replace (now s - t0 <=? window)%Z with false
    by (symmetry; apply Z.leb_gt; exact Hout).
  reflexivity.
Qed.

(** [P] is the head of a loop that polls for the button to become [want]
    until [window] has passed since [t0]. *)
Section Spin.

Variable P : pc.
Variables t0 window : Z.
Variable want : bool.
Variables on_edge on_expired : gstate -> pc * gstate.
Hypothesis step_P : forall s,
  step' (P, s) =
  match poll_once tick pressed t0 window want s with
  | (Again, s1) => (P, s1)
  | (Edge, s1) => on_edge s1
  | (Expired, s1) => on_expired s1
  end.

(** The button becomes [want] at instant [r], inside the window: the loop
    is left through its [if], at the first poll that falls on [r] or
    later. *)
Lemma spin_edge (r : Z) :
  (r <= t0 + window)%Z ->
  (forall x, (r <= x < r + tick)%Z -> pressed x = want) ->
  forall d s,
    (Z.to_nat (r - now s) <= d)%nat ->
    (now s < r)%Z ->
    (forall x, (now s < x < r)%Z -> pressed x = negb want) ->
    exists s', reaches' (P, s) (on_edge s') /\
               (r <= now s' < r + tick)%Z /\
               mode s' = mode s /\ out s' = out s.
Proof.
  intros Hwin Hedge. induction d as [|d IH]; intros s Hd Hlt Hquiet; [lia|].
  destruct (Z_lt_le_dec (now s + tick) r) as [Hbefore | Hafter].
  - destruct (IH (advance tick s)) as [s' [R [B [M O]]]];
      unfold advance; cbn [now mode out]; try lia.
    + intros x Hx. apply Hquiet. lia.
    + exists s'. split; [|auto].
      apply reaches_next. rewrite step_P, poll_again; [exact R | lia |].
      apply Hquiet. lia.
  - exists (advance tick s). unfold advance at 2 3 4 5; cbn [now mode out].
    split; [|split; [lia | auto]].
    apply reaches_next. rewrite step_P, poll_edge; [apply reaches_here | lia |].
    apply Hedge. lia.
Qed.

(** The button stays away from [want] until the window has passed: the
    loop is left through its condition. *)
Lemma spin_expired :
  forall d s,
    (Z.to_nat (t0 + window + 1 - now s) <= d)%nat ->
    (forall x, (now s < x <= t0 + window + tick)%Z -> pressed x = negb want) ->
    exists s', reaches' (P, s) (on_expired s') /\
               (t0 + window + tick < now s')%Z /\
               (now s' <= Z.max (now s + tick) (t0 + window + 2 * tick))%Z /\
               mode s' = mode s /\ out s' = out s.
Proof.
  assert (Hexit : forall s, (window < now s - t0)%Z ->
    exists s', reaches' (P, s) (on_expired s') /\
               (t0 + window + tick < now s')%Z /\
               (now s' <= Z.max (now s + tick) (t0 + window + 2 * tick))%Z /\
               mode s' = mode s /\ out s' = out s).
  { intros s Hout. exists (advance tick s). unfold advance at 2 3 4 5; cbn [now mode out].
    split; [|split; [lia | split; [lia | auto]]].
    apply reaches_next. rewrite step_P, poll_expired by exact Hout.
    apply reaches_here. }
  induction d as [|d IH]; intros s Hd Hquiet;
    destruct (Z_le_gt_dec (now s - t0) window) as [Hin | Hout];
    try (apply Hexit; lia); try lia.
  destruct (IH (advance tick s)) as [s' [R [B [U [M O]]]]];
    unfold advance; cbn [now mode out]; try lia.
  - intros x Hx. apply Hquiet. lia.
  - unfold advance in B, U, M, O. cbn [now mode out] in B, U, M, O.
    exists s'. split; [|split; [lia | split; [lia | auto]]].
    apply reaches_next. rewrite step_P, poll_again; [exact R | lia |].
    apply Hquiet. lia.
Qed.

End Spin.

(** *** The four loops of the handler *)

Ltac at_first_hold lemma t0 :=
  pose proof (lemma (FirstHold t0) t0 RDM_TIME false
    (fun s1 => (Released t0, s1)) (fun s1 => (LongHold t0, s1))
    (fun s => eq_refl)).

Ltac at_released lemma t0 :=
  pose proof (lemma (Released t0) t0 RDM_TIME true
    (fun s1 => (SecondHold t0 (now s1), advance tick s1))
    (fun s1 => (Returned, switch_if_changed MS_MODE "MS mode" RegledOff s1))
    (fun s => eq_refl)).

Ltac at_second_hold lemma t0 t1 :=
  pose proof (lemma (SecondHold t0 t1) t0 RDM_TIME false
    (fun s1 => (Returned, switch_if_changed RDM_MODE "RDM mode" RegledOn s1))
    (fun s1 => (Entry t1, switch MS_MODE "MS mode" RegledOff s1))
    (fun s => eq_refl)).

Ltac at_long_hold lemma t0 :=
  pose proof (lemma (LongHold t0) t0 ORD_TIME false
    (fun s1 => (Returned, switch_if_changed MS_MODE "MS mode" RegledOff s1))
    (fun s1 =>
       (Returned, switch_if_changed ORD_MODE "ORD Mode" RegledBlink s1))
    (fun s => eq_refl)).

Lemma entry_pressed (s : gstate) :
  pressed (now s) = true ->
  step' (Entry (-1), s) = (FirstHold (now s), advance tick s).
Proof.
  intro H. unfold step, is_pressed. rewrite H. reflexivity.
Qed.

Lemma resolves_intro (s s' : gstate) (m : Z) :
  reaches' (Entry (-1), s) (Returned, s') ->
  mode s' = m ->
  resolves tick pressed s m.
Proof.
  intros R M. destruct (reaches_run _ _ R) as [k Hk].
  exists k, s'. split; [|exact M].
  intros fuel Hf. unfold get_mode. rewrite (Hk fuel Hf). reflexivity.
Qed.

Hypothesis tick_small : (tick <= 100)%Z.

Variable c0 : Z.
Variable m : Z.
Variable log : list effect.

(** A press released after 0.3 s and not repeated before the window has
    passed. *)
Lemma single_click_resolves :
  (forall x, (c0 <= x < c0 + 300)%Z -> pressed x = true) ->
  (forall x, (c0 + 300 <= x <= c0 + 1000 + tick)%Z -> pressed x = false) ->
  resolves tick pressed (mkG c0 m log) MS_MODE.
Proof.
  intros Hdown Hup.
  at_first_hold spin_edge c0. at_released spin_expired c0.
  destruct (H (c0 + 300)%Z) with (s := advance tick (mkG c0 m log))
    (d := Z.to_nat (c0 + 300 - (c0 + tick)))
    as [s1 [R1 [B1 _]]]; unfold RDM_TIME, advance; cbn [now mode out];
    try lia.
  { intros x Hx. apply Hup. lia. }
  { intros x Hx. apply Hdown. lia. }
  destruct (H0 (Z.to_nat (c0 + RDM_TIME + 1 - now s1)) s1)
    as [s2 [R2 _]]; unfold RDM_TIME; try lia.
  { intros x Hx. apply Hup. lia. }
  eapply resolves_intro; [|apply mode_switch_if_changed].
  apply reaches_next. rewrite entry_pressed by (apply Hdown; simpl; lia).
  eapply reaches_trans; [exact R1 | exact R2].
Qed.

(** A press held for 2.5 s. *)
Lemma long_hold_resolves :
  (forall x, (c0 <= x < c0 + 2500)%Z -> pressed x = true) ->
  resolves tick pressed (mkG c0 m log) ORD_MODE.
Proof.
  intros Hdown.
  at_first_hold spin_expired c0. at_long_hold spin_expired c0.
  destruct (H (Z.to_nat (c0 + RDM_TIME + 1 - (c0 + tick)))
              (advance tick (mkG c0 m log)))
    as [s1 [R1 [B1 [U1 _]]]]; unfold RDM_TIME, advance in *;
    cbn [now mode out] in *; try lia.
  { intros x Hx. apply Hdown. lia. }
  destruct (H0 (Z.to_nat (c0 + ORD_TIME + 1 - now s1)) s1)
    as [s2 [R2 _]]; unfold ORD_TIME; try lia.
  { intros x Hx. apply Hdown. lia. }
  eapply resolves_intro; [|apply mode_switch_if_changed].
  apply reaches_next. rewrite entry_pressed by (apply Hdown; simpl; lia).
  eapply reaches_trans; [exact R1 | exact R2].
Qed.

(** A press released after 0.3 s, a second press at 0.5 s released at
    0.8 s. *)
Lemma double_click_resolves :
  (forall x, (c0 <= x < c0 + 300)%Z -> pressed x = true) ->
  (forall x, (c0 + 300 <= x < c0 + 500)%Z -> pressed x = false) ->
  (forall x, (c0 + 500 <= x < c0 + 800)%Z -> pressed x = true) ->
  (forall x, (c0 + 800 <= x < c0 + 800 + tick)%Z -> pressed x = false) ->
  resolves tick pressed (mkG c0 m log) RDM_MODE.
Proof.
  intros Hdown Hup Hdown2 Hup2.
  at_first_hold spin_edge c0. at_released spin_edge c0.
  destruct (H (c0 + 300)%Z) with (s := advance tick (mkG c0 m log))
    (d := Z.to_nat (c0 + 300 - (c0 + tick)))
    as [s1 [R1 [B1 _]]]; unfold RDM_TIME, advance in *;
    cbn [now mode out] in *; try lia.
  { intros x Hx. apply Hup. lia. }
  { intros x Hx. apply Hdown. lia. }
  destruct (H0 (c0 + 500)%Z) with (s := s1)
    (d := Z.to_nat (c0 + 500 - now s1))
    as [s2 [R2 [B2 _]]]; try lia.
  { intros x Hx. apply Hdown2. lia. }
  { intros x Hx. apply Hup. lia. }
  at_second_hold spin_edge c0 (now s2).
  destruct (H1 (c0 + 800)%Z) with (s := advance tick s2)
    (d := Z.to_nat (c0 + 800 - (now s2 + tick)))
    as [s3 [R3 _]]; unfold RDM_TIME, advance in *;
    cbn [now mode out] in *; try lia.
  { intros x Hx. apply Hup2. lia. }
  { intros x Hx. apply Hdown2. lia. }
  eapply resolves_intro; [|apply mode_switch_if_changed].
  apply reaches_next. rewrite entry_pressed by (apply Hdown; simpl; lia).
  eapply reaches_trans; [exact R1|].
  eapply reaches_trans; [exact R2 | exact R3].
Qed.

(** A press held for 1.5 s and then released. *)
Lemma short_hold_resolves :
  (forall x, (c0 <= x < c0 + 1500)%Z -> pressed x = true) ->
  (forall x, (c0 + 1500 <= x < c0 + 1500 + tick)%Z -> pressed x = false) ->
  resolves tick pressed (mkG c0 m log) MS_MODE.
Proof.
  intros Hdown Hup.
  at_first_hold spin_expired c0. at_long_hold spin_edge c0.
  destruct (H (Z.to_nat (c0 + RDM_TIME + 1 - (c0 + tick)))
              (advance tick (mkG c0 m log)))
    as [s1 [R1 [B1 [U1 _]]]]; unfold RDM_TIME, advance in *;
    cbn [now mode out] in *; try lia.
  { intros x Hx. apply Hdown. lia. }
  destruct (H0 (c0 + 1500)%Z) with (s := s1)
    (d := Z.to_nat (c0 + 1500 - now s1))
    as [s2 [R2 _]]; unfold ORD_TIME; try lia.
  { intros x Hx. apply Hup. lia. }
  { intros x Hx. apply Hdown. lia. }
  eapply resolves_intro; [|apply mode_switch_if_changed].
  apply reaches_next. rewrite entry_pressed by (apply Hdown; simpl; lia).
  eapply reaches_trans; [exact R1 | exact R2].
Qed.

End GestureFacts.

(** C2. With a polling period of at most 100 ms, whatever the mode, the
    console history and the clock when the press arrives: a press released
    after 0.3 s and not repeated before the one-second window has passed
    resolves to MS; a press held for 2.5 s resolves to ORD; a press
    released after 0.3 s, pressed again at 0.5 s and released at 0.8 s
    resolves to RDM; a press held for 1.5 s and released resolves to MS. *)
Theorem gesture_resolution (tick c0 m : Z) (log : list effect) :
  (0 < tick <= 100)%Z ->
  (forall pressed,
     (forall x, (c0 <= x < c0 + 300)%Z -> pressed x = true) ->
     (forall x, (c0 + 300 <= x <= c0 + 1000 + tick)%Z -> pressed x = false) ->
     resolves tick pressed (mkG c0 m log) MS_MODE) /\
  (forall pressed,
     (forall x, (c0 <= x < c0 + 2500)%Z -> pressed x = true) ->
     resolves tick pressed (mkG c0 m log) ORD_MODE) /\
  (forall pressed,
     (forall x, (c0 <= x < c0 + 300)%Z -> pressed x = true) ->
     (forall x, (c0 + 300 <= x < c0 + 500)%Z -> pressed x = false) ->
     (forall x, (c0 + 500 <= x < c0 + 800)%Z -> pressed x = true) ->
     (forall x, (c0 + 800 <= x < c0 + 800 + tick)%Z -> pressed x = false) ->
     resolves tick pressed (mkG c0 m log) RDM_MODE) /\
  (forall pressed,
     (forall x, (c0 <= x < c0 + 1500)%Z -> pressed x = true) ->
     (forall x, (c0 + 1500 <= x < c0 + 1500 + tick)%Z -> pressed x = false) ->
     resolves tick pressed (mkG c0 m log) MS_MODE).
Proof.
  intros [Hpos Hsmall].
  split; [|split; [|split]]; intro pressed.
  - apply single_click_resolves; assumption.
  - apply long_hold_resolves; assumption.
  - apply double_click_resolves; assumption.
  - apply short_hold_resolves; assumption.
Qed.

Ltac signal :=
  intros x Hx;
  unfold single_click, long_hold, double_click, short_hold;
  repeat match goal with
    | |- context [(?a <? ?b)%Z] => destruct (Z.ltb_spec a b)
    | |- context [(?a <=? ?b)%Z] => destruct (Z.leb_spec a b)
    end;
  simpl; try reflexivity; lia.

Lemma gesture_resolution_witness :
  resolves 1 single_click (mkG 0 ORD_MODE []) MS_MODE /\
  resolves 1 long_hold (mkG 0 MS_MODE []) ORD_MODE /\
  resolves 1 double_click (mkG 0 MS_MODE []) RDM_MODE /\
  resolves 1 short_hold (mkG 0 RDM_MODE []) MS_MODE.
Proof.
  assert (T : (0 < 1 <= 100)%Z) by lia.
  split; [|split; [|split]].
  - apply (proj1 (gesture_resolution 1 0 ORD_MODE [] T)); signal.
  - apply (proj1 (proj2 (gesture_resolution 1 0 MS_MODE [] T))); signal.
  - apply (proj1 (proj2 (proj2 (gesture_resolution 1 0 MS_MODE [] T))));
      signal.
  - apply (proj2 (proj2 (proj2 (gesture_resolution 1 0 RDM_MODE [] T))));
      signal.
Defined.

(** The same four gestures, run with one clock read per millisecond. *)
Example single_click_run :
  get_mode 1 single_click 1100 (mkG 0 ORD_MODE []) =
  Some (mkG 1002 MS_MODE [Print "MS mode"; RegledOff]).
Proof. vm_compute. reflexivity. Qed.

Example long_hold_run :
  get_mode 1 long_hold 2100 (mkG 0 MS_MODE []) =
  Some (mkG 2002 ORD_MODE [Print "ORD Mode"; RegledBlink]).
Proof. vm_compute. reflexivity. Qed.

Example double_click_run :
  get_mode 1 double_click 1100 (mkG 0 MS_MODE []) =
  Some (mkG 800 RDM_MODE [Print "RDM mode"; RegledOn]).
Proof. vm_compute. reflexivity. Qed.

Example short_hold_run :
  get_mode 1 short_hold 2100 (mkG 0 RDM_MODE []) =
  Some (mkG 1500 MS_MODE [Print "MS mode"; RegledOff]).
Proof. vm_compute. reflexivity. Qed.

(** Resolving to the mode that is already active is silent on the four
    guarded exits. *)
Example single_click_in_ms_is_silent :
  get_mode 1 single_click 1100 (mkG 0 MS_MODE []) =
  Some (mkG 1002 MS_MODE []).
Proof. vm_compute. reflexivity. Qed.

(** C4. The exit of the second-press loop through its condition (lines
    431-433) prints and drives the LED without comparing the modes: with
    MS active, a click followed by a press held for one second resolves to
    MS again and yet prints "MS mode" and calls [regled.off()]; with ORD
    active, a click followed by a long hold comes back to ORD through MS
    and reports both. *)
Theorem unguarded_switch_reports_active_mode :
  get_mode 1 click_then_hold 2000 (mkG 0 MS_MODE []) =
    Some (mkG 1502 MS_MODE [Print "MS mode"; RegledOff]) /\
  get_mode 1 click_then_long_hold 3000 (mkG 0 ORD_MODE []) =
    Some (mkG 2502 ORD_MODE
            [Print "MS mode"; RegledOff; Print "ORD Mode"; RegledBlink]).
Proof. split; vm_compute; reflexivity. Qed.

(** ** Sorting by timestamp *)

Section Sorting.

Variable key : row -> string.

Abbreviation ordered :=
  (fun a b : row => String.leb (key a) (key b) = true).

Lemma insert_row_perm (r : row) (l : list row) :
  Permutation (insert_row key r l) (r :: l).
Proof.
  induction l as [|x l IH]; simpl; [apply Permutation_refl|].
  destruct (String.leb (key r) (key x)); [apply Permutation_refl|].
  apply Permutation_trans with (x :: r :: l);
    [apply perm_skip, IH | apply perm_swap].
Qed.

Lemma sort_rows_by_perm (l : list row) :
  Permutation (sort_rows_by key l) l.
Proof.
  induction l as [|r l IH]; simpl; [apply perm_nil|].
  apply Permutation_trans with (r :: sort_rows_by key l);
    [apply insert_row_perm | apply perm_skip, IH].
Qed.

Lemma insert_row_hd (r x : row) (l : list row) :
  ordered x r -> HdRel ordered x l -> HdRel ordered x (insert_row key r l).
Proof.
  intros Hxr H. destruct l as [|y l]; simpl; [constructor; exact Hxr|].
  destruct (String.leb (key r) (key y)); constructor;
    [exact Hxr | inversion H; assumption].
Qed.

Lemma insert_row_sorted (r : row) (l : list row) :
  Sorted ordered l -> Sorted ordered (insert_row key r l).
Proof.
  induction 1 as [|x l Hs IH Hhd]; simpl; [repeat constructor|].
  destruct (String.leb (key r) (key x)) eqn:E.
  - constructor; [constructor; assumption | constructor; exact E].
  - constructor; [exact IH|].
    apply insert_row_hd; [|exact Hhd].
    destruct (String.leb_total (key x) (key r)) as [T | T];
      [exact T | congruence].
Qed.

Lemma sort_rows_by_sorted (l : list row) :
  Sorted ordered (sort_rows_by key l).
Proof.
  induction l as [|r l IH]; simpl; [constructor|].
  apply insert_row_sorted, IH.
Qed.

End Sorting.

Lemma Sorted_map {A B : Type} (f : A -> B) (R : B -> B -> Prop)
    (l : list A) :
  Sorted (fun a b => R (f a) (f b)) l -> Sorted R (map f l).
Proof.
  induction 1 as [|x l Hs IH Hhd]; simpl; constructor; [exact IH|].
  destruct Hhd; simpl; constructor; assumption.
Qed.

Lemma key_string_timestamp (r : row) :
  key_string COLUMNS "Date and Time" r = timestamp (snd r).
Proof.
  destruct r as [i [|c cells]]; [reflexivity|].
  destruct c; reflexivity.
Qed.

Lemma sorted_lines_perm (rs : list row) :
  Permutation (sorted_lines rs) (map snd rs).
Proof. apply Permutation_map, sort_rows_by_perm. Qed.

Lemma sorted_lines_sorted (rs : list row) :
  Sorted time_ordered (sorted_lines rs).
Proof.
  apply Sorted_map.
  pose proof (sort_rows_by_sorted (key_string COLUMNS "Date and Time") rs)
    as H.
  induction H as [|x l Hs IH Hhd]; constructor; [exact IH|].
  destruct Hhd as [|y l' Hxy]; constructor.
  unfold time_ordered. rewrite <- !key_string_timestamp. exact Hxy.
Qed.

(** ** Frames of readings *)

Lemma map_snd_combine_seq {A : Type} (l : list A) (k : nat) :
  map snd (combine (seq k (List.length l)) l) = l.
Proof.
  revert k. induction l as [|x l IH]; intro k; simpl; [reflexivity|].
  rewrite IH. reflexivity.
Qed.

Lemma map_snd_relabel (l : list (list cell)) : map snd (relabel l) = l.
Proof. apply map_snd_combine_seq. Qed.

Lemma reindex_reading (line : list cell) :
  reading_line line -> reindex COLUMNS COLUMNS line = line.
Proof. intros [t [p [d [E _]]]]. subst. reflexivity. Qed.

Lemma map_reindex_readings (rs : list row) :
  Forall (fun r => reading_line (snd r)) rs ->
  map (fun r => reindex COLUMNS COLUMNS (snd r)) rs = map snd rs.
Proof.
  induction 1 as [|r rs H _ IH]; cbn [map]; [reflexivity|].
  rewrite IH, (reindex_reading _ H). reflexivity.
Qed.

Lemma pot_cells_reading (p : pot_reading) : reading_line (pot_cells p).
Proof.
  exists (pot_time p), (Num (pot_percent p)), (Str "NaN").
  split; [reflexivity|]. eexists. eexists. split; [reflexivity|].
  left. split; [eexists; reflexivity | reflexivity].
Qed.

Lemma range_cells_reading (r : range_reading) : reading_line (range_cells r).
Proof.
  unfold range_cells, range_dict.
  destruct (Qgtb (distance r) 100) eqn:E; eexists; eexists; eexists;
    (split; [reflexivity|]); eexists; eexists; (split; [reflexivity|]);
    right; (split; [reflexivity|]).
  - right. reflexivity.
  - left. eexists. split; [reflexivity|]. apply Qgtb_false, E.
Qed.

Lemma pass_cells_readings (pots : list pot_reading) (r : range_reading) :
  Forall reading_line (pass_cells pots r).
Proof.
  unfold pass_cells. apply Forall_app. split.
  - apply Forall_forall. intros c Hc. apply in_map_iff in Hc.
    destruct Hc as [p [E _]]. subst. apply pot_cells_reading.
  - constructor; [apply range_cells_reading | constructor].
Qed.

Lemma buffer_ok_relabel (l : list (list cell)) :
  Forall reading_line l -> buffer_ok (mkDF COLUMNS (relabel l)).
Proof.
  intro H. split; [left; reflexivity|]. simpl.
  apply Forall_forall. intros r Hr. rewrite Forall_forall in H.
  apply H. rewrite <- (map_snd_relabel l). apply in_map, Hr.
Qed.

Lemma buffer_ok_readings (d : DataFrame) :
  buffer_ok d -> Forall reading_line (map snd (rows d)).
Proof.
  intros [_ H]. apply Forall_forall. intros c Hc.
  apply in_map_iff in Hc. destruct Hc as [r [E Hr]]. subst.
  rewrite Forall_forall in H. apply H, Hr.
Qed.

(** Appending one reading to the buffer. *)
Lemma concat_reading (d : DataFrame) (dict : list (string * cell)) :
  buffer_ok d ->
  map fst dict = COLUMNS ->
  reading_line (map snd dict) ->
  concat d (from_dict dict) =
  mkDF COLUMNS (relabel (map snd (rows d) ++ [map snd dict])).
Proof.
  assert (K1 : (COLUMNS ++
                filter (fun c => negb (existsb (String.eqb c) COLUMNS))
                  COLUMNS)%list = COLUMNS) by reflexivity.
  assert (K2 : ([] ++ filter (fun c => negb (existsb (String.eqb c) []))
                        COLUMNS)%list = COLUMNS) by reflexivity.
  intros [[C | [C R]] F] Hcols Hline; unfold concat, from_dict, has_column;
    cbn [columns rows map app snd]; rewrite C, Hcols.
  - rewrite K1, (map_reindex_readings _ F), (reindex_reading _ Hline).
    reflexivity.
  - rewrite K2, R. cbn [map app]. rewrite (reindex_reading _ Hline).
    reflexivity.
Qed.

Lemma position_sample_appends (p : pot_reading) (s : session) :
  record s = true -> buffer_ok (data s) ->
  position_sample p s =
  set_data s (mkDF COLUMNS (relabel (readings s ++ [pot_cells p]))).
Proof.
  intros Hrec Hok. unfold position_sample. rewrite Hrec.
  rewrite (concat_reading _ (pot_dict p) Hok eq_refl (pot_cells_reading p)).
  reflexivity.
Qed.

Lemma range_sample_appends (r : range_reading) (s : session) :
  record s = true -> buffer_ok (data s) ->
  range_sample r s =
  set_data s (mkDF COLUMNS (relabel (readings s ++ [range_cells r]))).
Proof.
  intros Hrec Hok. unfold range_sample. rewrite Hrec.
  rewrite (concat_reading _ (range_dict r) Hok);
    [reflexivity | | apply range_cells_reading].
  unfold range_dict. destruct (Qgtb (distance r) 100); reflexivity.
Qed.

(** The buffer after the appends of one pass of the sampling loop. *)
Lemma pass_appends (r : range_reading) (pots : list pot_reading) :
  forall s,
    record s = true -> buffer_ok (data s) ->
    range_sample r (fold_left (fun s p => position_sample p s) pots s) =
    set_data s (mkDF COLUMNS (relabel (readings s ++ pass_cells pots r))).
Proof.
  induction pots as [|p pots IH]; intros s Hrec Hok; simpl.
  - apply range_sample_appends; assumption.
  - rewrite (position_sample_appends p s Hrec Hok).
    rewrite IH; [| exact Hrec |].
    + unfold set_data, readings. simpl. rewrite map_snd_relabel.
      unfold pass_cells. simpl. rewrite <- app_assoc. reflexivity.
    + apply buffer_ok_relabel, Forall_app. split;
        [apply buffer_ok_readings, Hok |].
      constructor; [apply pot_cells_reading | constructor].
Qed.

(** ** The three write-outs *)

Lemma select_readings (rs : list row) :
  Forall (fun r => reading_line (snd r)) rs ->
  df_select COLUMNS (mkDF COLUMNS rs) = Ok (mkDF COLUMNS rs).
Proof.
  intro F. unfold df_select.
  change (forallb (has_column (mkDF COLUMNS rs)) COLUMNS) with true.
  cbn [columns rows]. f_equal. f_equal.
  induction F as [|r rs H _ IH]; cbn [map]; [reflexivity|].
  rewrite IH, (reindex_reading _ H). destruct r; reflexivity.
Qed.

Lemma sort_readings (rs : list row) :
  Forall (fun r => reading_line (snd r)) rs ->
  sort_values "Date and Time" (mkDF COLUMNS rs) =
  Ok (mkDF COLUMNS (sort_rows_by (key_string COLUMNS "Date and Time") rs)).
Proof.
  intro F. unfold sort_values.
  change (has_column (mkDF COLUMNS rs) "Date and Time") with true.
  cbn [columns rows].
  replace (forallb _ rs) with true; [reflexivity|].
  symmetry. apply forallb_forall. intros r Hr.
  rewrite Forall_forall in F. destruct (F r Hr) as [t [p [d [E _]]]].
  unfold sort_key. rewrite E. reflexivity.
Qed.

Lemma select_blank : df_select COLUMNS df_blank = Err KeyError.
Proof. reflexivity. Qed.

Lemma csv_lines_stripped (rs : list row) :
  csv_lines false (drop_first_column (mkDF COLUMNS rs)) =
  map (@tl cell) (map snd rs).
Proof.
  unfold csv_lines, drop_first_column. cbn [rows app].
  rewrite !map_map. reflexivity.
Qed.

Lemma csv_lines_renumbered (rs : list row) :
  csv_lines false (drop_first_column (reset_index (mkDF COLUMNS rs))) =
  map snd rs.
Proof.
  unfold csv_lines, drop_first_column, reset_index. cbn [rows app].
  transitivity
    (map (@tl cell)
       (map snd (relabel (map (fun r : row => Idx (fst r) :: snd r) rs))));
    [rewrite !map_map; reflexivity|].
  rewrite map_snd_relabel, map_map. reflexivity.
Qed.

(** The write-out at the threshold (lines 640-648) on a buffer of readings.
    The lines it writes are the sorted rows without their first cell. *)
Lemma flush_buffer_spec (mon rec : bool) (fn : string) (rs : list row)
    (dk : fsys) :
  Forall (fun r => reading_line (snd r)) rs ->
  flush_buffer (mkSession mon rec fn (mkDF COLUMNS rs) dk) =
  Done (mkSession mon rec fn df_blank
          (write_append dk fn (map (@tl cell) (sorted_lines rs)))).
Proof.
  intro F.
  unfold flush_buffer, then_, arrange, sort_by_time, strip_first, write_rows,
    clear_buffer, assign_data, set_data, set_disk.
  cbn [data monitor record filename disk].
  rewrite (select_readings _ F). cbn [data monitor record filename disk].
  rewrite (sort_readings _ F). cbn [data monitor record filename disk].
  rewrite csv_lines_stripped. reflexivity.
Qed.

(** The write-out of lines 656-665 and 675-681 on a buffer of readings. *)
Lemma final_write_spec (mon rec : bool) (fn : string) (rs : list row)
    (dk : fsys) :
  Forall (fun r => reading_line (snd r)) rs ->
  (arrange ;; sort_by_time ;; renumber ;; strip_first ;; write_rows)
    (mkSession mon rec fn (mkDF COLUMNS rs) dk) =
  Done (mkSession mon rec fn
          (drop_first_column
             (reset_index
                (mkDF COLUMNS
                   (sort_rows_by (key_string COLUMNS "Date and Time") rs))))
          (write_append dk fn (sorted_lines rs))).
Proof.
  intro F.
  unfold then_, arrange, sort_by_time, renumber, strip_first, write_rows,
    assign_data, set_data, set_disk.
  cbn [data monitor record filename disk].
  rewrite (select_readings _ F). cbn [data monitor record filename disk].
  rewrite (sort_readings _ F). cbn [data monitor record filename disk].
  rewrite csv_lines_renumbered. reflexivity.
Qed.

Lemma final_write_blank (mon rec : bool) (fn : string) (dk : fsys)
    (last : stmt) :
  (arrange ;; sort_by_time ;; renumber ;; strip_first ;; last)
    (mkSession mon rec fn df_blank dk) =
  Raised KeyError (mkSession mon rec fn df_blank dk).
Proof. reflexivity. Qed.

(** ** One pass of the sampling loop *)

Lemma length_relabel (l : list (list cell)) :
  List.length (relabel l) = List.length l.
Proof.
  rewrite <- (map_snd_relabel l) at 2. symmetry. apply length_map.
Qed.

Lemma relabel_readings (l : list (list cell)) :
  Forall reading_line l ->
  Forall (fun r => reading_line (snd r)) (relabel l).
Proof. intro H. apply (buffer_ok_relabel l H). Qed.

Lemma iteration_spec (s : session) (pots : list pot_reading)
    (r : range_reading) :
  record s = true -> buffer_ok (data s) ->
  iteration pots r s =
  if (BUFFER_SIZE <? List.length (readings s ++ pass_cells pots r))%nat
  then Done (mkSession (monitor s) (record s) (filename s) df_blank
               (write_append (disk s) (filename s)
                  (map (@tl cell)
                     (sorted_lines
                        (relabel (readings s ++ pass_cells pots r))))))
  else Done (set_data s
               (mkDF COLUMNS (relabel (readings s ++ pass_cells pots r)))).
Proof.
  intros Hrec Hok. unfold iteration.
  rewrite (pass_appends r pots s Hrec Hok).
  unfold check_buffer, buffer_size, set_data. cbn [data rows].
  rewrite length_relabel.
  destruct (BUFFER_SIZE <? _)%nat; [|reflexivity].
  apply flush_buffer_spec, relabel_readings, Forall_app.
  split; [apply buffer_ok_readings, Hok | apply pass_cells_readings].
Qed.

Lemma payload_tl (line : list cell) :
  reading_line line -> payload (tl line) = payload line.
Proof. intros [t [p [d [E _]]]]. subst. reflexivity. Qed.

Lemma payload_reading (line : list cell) :
  reading_line line -> payload_ok (payload line).
Proof. intros [t [p [d [E H]]]]. subst. exact H. Qed.


Lemma stripped_not_header (lines : list (list cell)) :
  Forall reading_line lines -> ~ In header_line (map (@tl cell) lines).
Proof.
  intros F K. apply in_map_iff in K. destruct K as [line [E Hin]].
  rewrite Forall_forall in F. destruct (F line Hin) as [t [p [d [L _]]]].
  subst. discriminate.
Qed.

Lemma sorted_readings (l : list (list cell)) :
  Forall reading_line l -> Forall reading_line (sorted_lines (relabel l)).
Proof.
  intro F. eapply Permutation_Forall; [|exact F].
  apply Permutation_sym.
  rewrite <- (map_snd_relabel l) at 2. apply sorted_lines_perm.
Qed.



(** ** A whole session *)

Lemma open_session_ok (cmode : Z) (ctime : string) (files : fsys) :
  snd (mode_settings cmode) = true ->
  session_ok files (data_filename ctime) (open_session cmode ctime files).
Proof.
  intro H. unfold open_session.
  destruct (mode_settings cmode) as [mon rec]. simpl in H. subst rec.
  cbn [record filename data disk].
  split; [reflexivity|]. split; [reflexivity|].
  split; [split; [left; reflexivity | constructor]|].
  split.
  - intros other Hother. cbn [disk]. unfold write_append.
    destruct (String.eqb_spec other (data_filename ctime));
      [contradiction | reflexivity].
  - exists []. cbn [disk]. unfold write_append. rewrite String.eqb_refl.
    split; [reflexivity|]. split; [intros []| constructor].
Qed.

Lemma iteration_ok (files : fsys) (name : string) (s : session)
    (pots : list pot_reading) (r : range_reading) :
  session_ok files name s ->
  exists s', iteration pots r s = Done s' /\ session_ok files name s'.
Proof.
  intros [Hrec [Hname [Hok [Hothers [flushed [Hdisk [Hnh Hpay]]]]]]].
  assert (F : Forall reading_line (readings s ++ pass_cells pots r)).
  { apply Forall_app. split;
      [apply buffer_ok_readings, Hok | apply pass_cells_readings]. }
  rewrite (iteration_spec s pots r Hrec Hok).
  destruct (BUFFER_SIZE <? _)%nat; eexists; (split; [reflexivity|]).
  - unfold session_ok. cbn [record filename data disk].
    split; [exact Hrec|]. split; [exact Hname|].
    split; [split; [right; split; reflexivity | constructor]|].
    rewrite Hname. split.
    + intros other Hother. unfold write_append.
      destruct (String.eqb_spec other name); [contradiction|].
      apply Hothers, Hother.
    + exists (flushed ++
              map (@tl cell)
                (sorted_lines (relabel (readings s ++ pass_cells pots r))))%list.
      unfold write_append. rewrite String.eqb_refl, Hdisk.
      split; [rewrite <- app_assoc; reflexivity|].
      pose proof (sorted_readings _ F) as G.
      split.
      * intro K. apply in_app_or in K. destruct K as [K | K];
          [exact (Hnh K) | exact (stripped_not_header _ G K)].
      * rewrite map_app. apply Forall_app. split; [exact Hpay|].
        rewrite map_map. apply Forall_forall. intros pl Hpl.
        apply in_map_iff in Hpl. destruct Hpl as [line [E Hin]]. subst pl.
        rewrite Forall_forall in G.
        rewrite (payload_tl _ (G line Hin)).
        apply payload_reading, G, Hin.
  - unfold session_ok, set_data. cbn [record filename data disk].
    split; [exact Hrec|]. split; [exact Hname|].
    split; [apply buffer_ok_relabel, F|].
    split; [exact Hothers|].
    exists flushed. auto.
Qed.

Lemma iterations_ok (files : fsys) (name : string)
    (its : list (list pot_reading * range_reading)) :
  forall s,
    session_ok files name s ->
    exists s', iterations its s = Done s' /\ session_ok files name s'.
Proof.
  induction its as [|[pots r] its IH]; intros s Hs.
  - exists s. split; [reflexivity | exact Hs].
  - destruct (iteration_ok files name s pots r Hs) as [s1 [E1 H1]].
    destruct (IH s1 H1) as [s2 [E2 H2]].
    exists s2. split; [|exact H2].
    cbn [iterations]. unfold then_. rewrite E1. exact E2.
Qed.

Lemma close_session_spec (mon : bool) (fn : string) (rs : list row)
    (dk : fsys) :
  Forall (fun r => reading_line (snd r)) rs ->
  exists d,
    close_session (mkSession mon true fn (mkDF COLUMNS rs) dk) =
    Done (mkSession mon true fn d (write_append dk fn (sorted_lines rs))).
Proof.
  intro F. eexists.
  unfold close_session, then_, arrange, sort_by_time, renumber, strip_first,
    write_rows, assign_data, set_data, set_disk.
  cbn [data monitor record filename disk].
  rewrite (select_readings _ F). cbn [data monitor record filename disk].
  rewrite (sort_readings _ F). cbn [data monitor record filename disk].
  rewrite csv_lines_renumbered. reflexivity.
Qed.

Lemma on_interrupt_spec (mon : bool) (fn : string) (rs : list row)
    (dk : fsys) :
  Forall (fun r => reading_line (snd r)) rs ->
  exists d,
    on_interrupt (mkSession mon true fn (mkDF COLUMNS rs) dk) =
    Done (mkSession mon true fn d (write_append dk fn (sorted_lines rs))).
Proof.
  intro F. eexists. unfold on_interrupt. cbn [record].
  apply final_write_spec, F.
Qed.

(** The end of a session, by a change of mode or by an interrupt that
    falls between two passes: the rows of the buffer are appended in
    timestamp order, with their three columns; on the buffer without
    columns left by line 648 the selection of line 657 or 675 raises
    [KeyError] and nothing is written. *)
Lemma finish_spec (e : ending) (s : session) :
  record s = true -> buffer_ok (data s) ->
  (exists s',
     finish e s = Done s' /\ filename s' = filename s /\
     disk s' =
       write_append (disk s) (filename s) (sorted_lines (rows (data s)))) \/
  (readings s = [] /\ finish e s = Raised KeyError s).
Proof.
  intros Hrec [[C | [C R]] F];
    destruct s as [mon rec fn [cols rs] dk]; simpl in *; subst.
  - left. destruct e; cbn [finish].
    + destruct (close_session_spec mon fn rs dk F) as [d E].
      rewrite E. eexists. split; [reflexivity|]. split; reflexivity.
    + destruct (on_interrupt_spec mon fn rs dk F) as [d E].
      rewrite E. eexists. split; [reflexivity|]. split; reflexivity.
  - right. split; [reflexivity|]. destruct e; reflexivity.
Qed.

Lemma sorted_lines_readings (d : DataFrame) :
  buffer_ok d -> Forall reading_line (sorted_lines (rows d)).
Proof.
  intro H. eapply Permutation_Forall; [|apply buffer_ok_readings, H].
  apply Permutation_sym, sorted_lines_perm.
Qed.




(** The lines of the write-out at the threshold have two cells: line 644
    removes the column of the timestamps, where lines 659-660 and 677-678
    remove the column that [reset_index] has just added. *)
Example flush_lines_have_two_cells :
  exists s',
    iteration [] sample_range session_250 = Done s' /\
    nth 1 (disk s' (filename s')) [] = [Str "NaN"; Num 12] /\
    Forall (fun line => List.length line = 2%nat)
      (skipn 1 (disk s' (filename s'))).
Proof.
  eexists. split; [vm_compute; reflexivity|].
  split; [vm_compute; reflexivity|].
  apply Forall_forall. intros line Hin.
  vm_compute in Hin.
  repeat (destruct Hin as [Hin | Hin]; [subst line; reflexivity|]).
  contradiction.
Qed.

(** ** The interrupt handler *)

(** An interrupt that falls between two passes of the sampling loop, on a
    buffer that holds readings: the handler returns, and the rows of the
    buffer are appended to the session file in timestamp order. *)
Lemma interrupt_between_passes (s : session) :
  record s = true -> buffer_ok (data s) -> readings s <> [] ->
  exists s' written,
    on_interrupt s = Done s' /\
    disk s' (filename s) = (disk s (filename s) ++ written)%list /\
    Permutation written (readings s) /\
    Sorted time_ordered written.
Proof.
  intros Hrec Hok Hne.
  destruct (finish_spec Interrupted s Hrec Hok) as [[s' [E [N D]]] | [K _]];
    [|contradiction].
  exists s', (sorted_lines (rows (data s))).
  split; [exact E|].
  split; [rewrite D; unfold write_append; rewrite String.eqb_refl;
          reflexivity|].
  split; [apply sorted_lines_perm | apply sorted_lines_sorted].
Qed.

(** C9. An interrupt that arrives inside the write-out at the threshold,
    after line 644 has removed the timestamp column and before line 646 has
    written the rows: the selection of line 675 raises [KeyError], the
    handler does not return, and the 251 rows of the buffer are not in the
    file, which holds its header only. *)
Theorem interrupt_inside_flush_loses_buffer :
  exists mid,
    (arrange ;; sort_by_time ;; strip_first)
      (range_sample sample_range session_250) = Done mid /\
    buffer_size mid = 251%nat /\
    on_interrupt mid = Raised KeyError mid /\
    disk (final_state (on_interrupt mid)) (filename mid) = [header_line].
Proof.
  eexists. split; [vm_compute; reflexivity|].
  split; [vm_compute; reflexivity|].
  split; vm_compute; reflexivity.
Qed.

(** * Further properties of the program *)

(** ** Tones *)

Lemma py_int_floor (x : Q) : 0 <= x -> py_int x = Qfloor x.
Proof.
  destruct x as [n d]. unfold Qle, py_int, Qfloor. simpl. intro H.
  apply Z.quot_div_nonneg; lia.
Qed.

Lemma py_int_between (x : Q) (lo hi : Z) :
  inject_Z lo <= x -> x <= inject_Z hi -> (0 <= lo)%Z ->
  (lo <= py_int x <= hi)%Z.
Proof.
  intros Hlo Hhi Hpos.
  assert (P : 0 <= x).
  { apply Qle_trans with (inject_Z lo); [|exact Hlo].
    change 0 with (inject_Z 0). rewrite <- Zle_Qle. exact Hpos. }
  rewrite (py_int_floor x P). split.
  - rewrite <- (Qfloor_Z lo). apply Qfloor_resp_le, Hlo.
  - rewrite <- (Qfloor_Z hi). apply Qfloor_resp_le, Hhi.
Qed.



Lemma in_range_iff (d : Q) :
  in_range d = true <-> MIN_DIST <= d <= MAX_DIST.
Proof.
  unfold in_range.
  destruct (Qgeb d MIN_DIST && Qle_bool d MAX_DIST) eqn:E.
  - apply andb_true_iff in E. destruct E as [A B].
    apply Qgeb_true in A. apply Qle_bool_iff in B. tauto.
  - split; [discriminate|]. intros [A B].
    apply Qgeb_true in A. apply Qle_bool_iff in B.
    rewrite A, B in E. discriminate.
Qed.

(** X2. [in_range] holds exactly between [MIN_DIST] and [MAX_DIST],
    bounds included, and that is exactly where [frequency] interpolates:
    out of range the frequency is [None] (too far) or [MAX_FREQ] (too
    close). *)
Theorem in_range_frequency (d : Q) :
  (in_range d = true <-> MIN_DIST <= d <= MAX_DIST) /\
  (in_range d = false ->
   frequency d = Freq None \/ frequency d = Freq (Some MAX_FREQ)).
Proof.
  pose proof (in_range_iff d) as R.
  split; [exact R|].
  intro F. destruct (Qlt_le_dec MAX_DIST d) as [Hfar | Hle].
  - left. apply frequency_far, Hfar.
  - right. apply frequency_near.
    destruct (Qlt_le_dec d MIN_DIST) as [Hnear | Hge]; [exact Hnear|].
    assert (T : in_range d = true) by (apply R; split; assumption).
    congruence.
Qed.

Lemma in_range_frequency_witness :
  frequency 30 = Freq None \/ frequency 30 = Freq (Some MAX_FREQ).
Proof.
  apply (proj2 (in_range_frequency 30)). reflexivity.
Defined.

(** X3. [buzzer] always ends by starting the buzzer with the duty cycle
    10, also for an object beyond [MAX_DIST]: there it changes no
    frequency and returns [None]; up to [MAX_DIST] it first sets a
    frequency between [MIN_FREQ] and [MAX_FREQ] and returns it. *)
Theorem buzzer_always_starts (d : Q) :
  exists calls freq,
    buzzer d = Some ((calls ++ [BuzzStart DUTY_CYCLE])%list, freq) /\
    (MAX_DIST < d -> calls = [] /\ freq = None) /\
    (d <= MAX_DIST ->
     exists f, calls = [ChangeFrequency f] /\ freq = Some f /\
               MIN_FREQ <= f <= MAX_FREQ).
Proof.
  unfold buzzer, buzzer_with.
  destruct (frequency_bound d) as [N | [f [E [Hlo Hhi]]]].
  - rewrite N. exists [], None. split; [reflexivity|].
    split; [auto|]. intro Hle.
    destruct (Qlt_le_dec d MIN_DIST) as [Hnear | Hge].
    + rewrite (frequency_near d Hnear) in N. discriminate.
    + rewrite (frequency_mid d (conj Hge Hle)) in N. discriminate.
  - rewrite E.
    assert (T : truthy (Some f) = true)
      by (apply truthy_positive; unfold MIN_FREQ in Hlo; lra).
    rewrite T. exists [ChangeFrequency f], (Some f).
    split; [reflexivity|]. split.
    + intro Hfar. rewrite (frequency_far d Hfar) in E. discriminate.
    + intros _. exists f. auto.
Qed.

Lemma buzzer_always_starts_witness :
  exists calls freq,
    buzzer 25 = Some ((calls ++ [BuzzStart DUTY_CYCLE])%list, freq) /\
    calls = [] /\ freq = None.
Proof.
  destruct (buzzer_always_starts 25) as [calls [freq [E [Far _]]]].
  exists calls, freq. split; [exact E|]. apply Far. reflexivity.
Defined.

(** X4. The frequency [run_mode] hands to [buzz.ChangeFrequency] after a
    range reading (lines 568-571) is a whole number between 100 and 2000;
    beyond [MAX_DIST] no call is made. *)
Theorem tone_update_whole_hertz (d : Q) :
  (MAX_DIST < d -> tone_update d = Some ([], None)) /\
  (d <= MAX_DIST ->
   exists n : Z,
     tone_update d =
       Some ([ChangeFrequency (inject_Z n)], Some (inject_Z n)) /\
     (100 <= n <= 2000)%Z).
Proof.
  unfold tone_update, tone_update_with. split.
  - intro Hfar. rewrite (frequency_far d Hfar). reflexivity.
  - intro Hle.
    destruct (frequency_bound d) as [N | [f [E [Hlo Hhi]]]].
    + destruct (Qlt_le_dec d MIN_DIST) as [Hnear | Hge].
      * rewrite (frequency_near d Hnear) in N. discriminate.
      * rewrite (frequency_mid d (conj Hge Hle)) in N. discriminate.
    + rewrite E.
      assert (T : truthy (Some f) = true)
        by (apply truthy_positive; unfold MIN_FREQ in Hlo; lra).
      rewrite T. exists (py_int f). split; [reflexivity|].
      apply py_int_between; [exact Hlo | exact Hhi | lia].
Qed.

Lemma tone_update_whole_hertz_witness :
  exists n : Z,
    tone_update 7 =
      Some ([ChangeFrequency (inject_Z n)], Some (inject_Z n)) /\
    (100 <= n <= 2000)%Z.
Proof.
  apply (proj2 (tone_update_whole_hertz 7)). unfold MAX_DIST. lra.
Defined.

(** ** The buzzer control of the sampling loop *)

Lemma not_far_not_in_range (d : Q) :
  Qgtb d MAX_DIST = false -> in_range d = false -> d < MIN_DIST.
Proof.
  intros F R. apply Qgtb_false in F.
  destruct (Qlt_le_dec d MIN_DIST) as [H | H]; [exact H|].
  assert (T : in_range d = true)
    by (apply in_range_iff; split; assumption).
  congruence.
Qed.

(** X5. Starting from locals that are in step, the buzzer control never
    reads [beep_t0] before it has a value and leaves the locals in step;
    after the pass [too_close] is set exactly when the distance is below
    [MIN_DIST]; and the first pass that finds the object too close makes no
    call on the buzzer: it only sets the flag and starts the beep timer at
    the instant the pass began. *)
Theorem monitor_buzzer_flag (d : Q) (c : pass_clock) (b : beeper) :
  armed b ->
  exists calls b',
    monitor_buzzer d c b = Some (calls, b') /\
    armed b' /\
    (too_close b' = true <-> d < MIN_DIST) /\
    (d < MIN_DIST -> too_close b = false ->
     calls = [] /\ beep_t0 b' = Some (dist_t0 c)).
Proof.
  intro A. unfold monitor_buzzer.
  destruct (Qgtb d MAX_DIST) eqn:Far.
  { apply Qgtb_true in Far. do 2 eexists. split; [reflexivity|].
    split; [intro K; discriminate|].
    split; [split; [discriminate | unfold MIN_DIST, MAX_DIST in *; lra]|].
    unfold MIN_DIST, MAX_DIST in *. lra. }
  destruct (in_range d) eqn:R.
  { apply in_range_iff in R. do 2 eexists.
    split; [reflexivity|]. split; [intro K; discriminate|].
    split; [split; [discriminate | lra]|]. lra. }
  pose proof (not_far_not_in_range d Far R) as Near.
  destruct (too_close b) eqn:T; cbn [negb].
  - destruct (A T) as [t0 E]. rewrite E.
    destruct (Qltb d MIN_DIST && same_604 c).
    + destruct (Qgtb (time_611 c) (t0 + 2 * BEEP_INTERVAL)
                && Qltb d MIN_DIST && same_611 c);
        do 2 eexists; (split; [reflexivity|]).
      * split; [intros _; eexists; reflexivity|].
        split; [tauto | discriminate].
      * split; [intros _; eexists; exact E|].
        split; [rewrite T; tauto | discriminate].
    + do 2 eexists. split; [reflexivity|].
      split; [intros _; eexists; exact E|].
      split; [rewrite T; tauto | discriminate].
  - do 2 eexists. split; [reflexivity|].
    split; [intros _; eexists; reflexivity|].
    split; [tauto|]. intros _ _. split; reflexivity.
Qed.

Lemma monitor_buzzer_flag_witness :
  exists calls b',
    monitor_buzzer 2 (mkPassClock 10 10 10 true true true)
      (mkBeeper false None) = Some (calls, b') /\
    too_close b' = true.
Proof.
  destruct (monitor_buzzer_flag 2 (mkPassClock 10 10 10 true true true)
              (mkBeeper false None)) as [calls [b' [E [_ [F _]]]]].
  - intro K. discriminate.
  - exists calls, b'. split; [exact E|]. apply F. reflexivity.
Defined.

(** X6. The beep of an object that stays too close, while the mode does
    not change: a pass that ends within [BEEP_INTERVAL] of the timer leaves
    the buzzer sounding; a pass that falls wholly in the second interval
    leaves it silent; a pass that ends after two intervals leaves it
    sounding again and moves the timer forward by the two intervals.
    What the buzzer did before the pass does not matter. *)
Theorem beep_cycle (d t0 : Q) (c : pass_clock) (was : bool) :
  d < MIN_DIST ->
  same_604 c = true -> same_607 c = true -> same_611 c = true ->
  time_607 c <= time_611 c ->
  exists calls b',
    monitor_buzzer d c (mkBeeper true (Some t0)) = Some (calls, b') /\
    (time_611 c <= t0 + BEEP_INTERVAL ->
     sounding was calls = true /\ beep_t0 b' = Some t0) /\
    (t0 + BEEP_INTERVAL < time_607 c ->
     time_611 c <= t0 + 2 * BEEP_INTERVAL ->
     sounding was calls = false /\ beep_t0 b' = Some t0) /\
    (t0 + 2 * BEEP_INTERVAL < time_611 c ->
     sounding was calls = true /\
     beep_t0 b' = Some (t0 + 2 * BEEP_INTERVAL)).
Proof.
  intros Near S4 S7 S11 Hclk. unfold monitor_buzzer.
  assert (Far : Qgtb d MAX_DIST = false)
    by (apply Qgtb_false; unfold MIN_DIST, MAX_DIST in *; lra).
  assert (R : in_range d = false).
  { destruct (in_range d) eqn:R; [|reflexivity].
    apply in_range_iff in R. lra. }
  assert (L : Qltb d MIN_DIST = true) by (apply Qltb_true; exact Near).
  rewrite Far, R, L, S4, S7, S11. cbn [too_close beep_t0 negb andb].
  rewrite !andb_true_r.
  destruct (Qgtb (time_607 c) (t0 + BEEP_INTERVAL)) eqn:A;
    destruct (Qgtb (time_611 c) (t0 + 2 * BEEP_INTERVAL)) eqn:B;
    bool_to_Q; do 2 eexists; (split; [reflexivity|]);
    unfold BEEP_INTERVAL in *; cbn [sounding app beep_t0];
    (split; [intro; try lra; split; reflexivity|]);
    (split; [intros; try lra; split; reflexivity|]);
    intro; try lra; split; reflexivity.
Qed.

Lemma beep_cycle_witness :
  exists calls b',
    monitor_buzzer 2 (mkPassClock 3 (7 # 2) (7 # 2) true true true)
      (mkBeeper true (Some (29 # 10))) = Some (calls, b') /\
    sounding true calls = false.
Proof.
  destruct (beep_cycle 2 (29 # 10)
              (mkPassClock 3 (7 # 2) (7 # 2) true true true) true)
    as [calls [b' [E [_ [Off _]]]]];
    try reflexivity; try (unfold MIN_DIST; lra); try (simpl; lra).
  exists calls, b'. split; [exact E|].
  apply Off; unfold BEEP_INTERVAL; simpl; lra.
Defined.

(** ** Colours *)

(** X7. [get_color] binds its three results for every number, also
    outside 0 to 100: one of the six tests of the chain always holds, so
    the function never falls through with [red], [green] and [blue]
    unset.  Above 100*(5/6)/0.75 it is the sixth branch that runs. *)
Theorem get_color_always_bound (p : Q) :
  (exists c, get_color p = Some c) /\
  (1000 # 9 < p -> color_segment (scaled p) = Seg6).
Proof.
  unfold get_color. cbv zeta.
  pose proof (color_segment_cases (scaled p)) as C.
  split.
  - destruct (color_segment (scaled p)); simpl;
      try (eexists; reflexivity); contradiction.
  - intro H. pose proof (scaled_linear p) as S.
    destruct (color_segment (scaled p)); try reflexivity;
      try contradiction; lra.
Qed.

Lemma get_color_always_bound_witness :
  color_segment (scaled 120) = Seg6.
Proof.
  apply (proj2 (get_color_always_bound 120)). reflexivity.
Defined.

(** X8. Between 0 and 100 the colour is a pure hue: one of the three
    channels is 1 and one is 0. *)
Theorem get_color_pure_hue (p : Q) :
  0 <= p <= 100 ->
  exists r g b,
    get_color p = Some (r, g, b) /\
    (r == 1 \/ g == 1 \/ b == 1) /\
    (r == 0 \/ g == 0 \/ b == 0).
Proof.
  intros [Hlo Hhi]. unfold get_color. cbv zeta.
  pose proof (color_segment_cases (scaled p)) as C.
  pose proof (scaled_linear p) as S.
  destruct (color_segment (scaled p)); simpl;
    try contradiction; try lra;
    do 3 eexists; (split; [reflexivity|]);
    split; (try (left; reflexivity);
            try (right; left; reflexivity);
            try (right; right; reflexivity)).
Qed.

Lemma get_color_pure_hue_witness :
  exists r g b,
    get_color 40 = Some (r, g, b) /\
    (r == 1 \/ g == 1 \/ b == 1) /\
    (r == 0 \/ g == 0 \/ b == 0).
Proof.
  apply (get_color_pure_hue 40). split; unfold Qle; simpl; lia.
Defined.

Lemma channel_8bit (x : Q) :
  in_unit x -> (0 <= py_int (x * 255) <= 255)%Z.
Proof.
  intros [Hlo Hhi]. apply py_int_between; [| |lia].
  - change (inject_Z 0) with 0. nra.
  - change (inject_Z 255) with 255. nra.
Qed.

(** X9. Between 0 and 100 the three values reported on the 0-255 scale
    (lines 545-547) are whole numbers from 0 to 255. *)
Theorem get_color_8bit_range (p : Q) :
  0 <= p <= 100 ->
  exists c R G B,
    get_color p = Some c /\ to_8bit c = (R, G, B) /\
    (0 <= R <= 255)%Z /\ (0 <= G <= 255)%Z /\ (0 <= B <= 255)%Z.
Proof.
  intros [Hlo Hhi]. unfold get_color. cbv zeta.
  destruct (segment_color_in_unit (scaled p)) as [[[r g] b] [E [Ur [Ug Ub]]]].
  { rewrite scaled_linear. lra. }
  rewrite E. exists (r, g, b). do 3 eexists.
  split; [reflexivity|]. split; [reflexivity|].
  split; [apply channel_8bit, Ur|].
  split; [apply channel_8bit, Ug | apply channel_8bit, Ub].
Qed.

Lemma get_color_8bit_range_witness :
  exists c R G B,
    get_color 40 = Some c /\ to_8bit c = (R, G, B) /\
    (0 <= R <= 255)%Z /\ (0 <= G <= 255)%Z /\ (0 <= B <= 255)%Z.
Proof.
  apply (get_color_8bit_range 40). split; unfold Qle; simpl; lia.
Defined.



(** ** More on the gesture recogniser *)

Section GestureInvariants.

Variable tick : Z.
Variable pressed : Z -> bool.

Ltac step_cases p s :=
  destruct p; unfold step, poll_once, time_time, is_pressed,
    switch_if_changed, switch, advance;
  repeat match goal with
    | |- context [if ?b then _ else _] => destruct b eqn:?
    end;
  cbn [fst snd now mode out negb].

(** What one step does: the clock does not go back, and the mode and the
    outputs are either untouched or the outputs gain exactly the report of
    the mode now active. *)
Lemma step_effect (p : pc) (s : gstate) :
  (0 <= tick)%Z ->
  (now s <= now (snd (step tick pressed (p, s))))%Z /\
  ((mode (snd (step tick pressed (p, s))) = mode s /\
    out (snd (step tick pressed (p, s))) = out s) \/
   (out (snd (step tick pressed (p, s))) =
      (out s ++ mode_report (mode (snd (step tick pressed (p, s)))))%list /\
    mode_report (mode (snd (step tick pressed (p, s)))) <> [])).
Proof.
  intro Htick. step_cases p s; (split; [lia|]);
    try (left; split; reflexivity);
    right; split; try reflexivity; discriminate.
Qed.

(** A step that does not re-enter the handler reports only a mode that
    differs from the one before, and only when it returns. *)
Lemma step_direct (p : pc) (s : gstate) :
  (forall t, fst (step tick pressed (p, s)) <> Entry t) ->
  (mode (snd (step tick pressed (p, s))) = mode s /\
   out (snd (step tick pressed (p, s))) = out s) \/
  (fst (step tick pressed (p, s)) = Returned /\
   mode (snd (step tick pressed (p, s))) <> mode s /\
   out (snd (step tick pressed (p, s))) =
     (out s ++ mode_report (mode (snd (step tick pressed (p, s)))))%list).
Proof.
  step_cases p s; intro NoEntry;
    try (left; split; reflexivity);
    try (exfalso; eapply NoEntry; reflexivity);
    right; (split; [reflexivity|]); (split; [|reflexivity]);
    match goal with
    | H : negb (_ =? _)%Z = true |- _ =>
        apply negb_true_iff, Z.eqb_neq in H; cbn [mode] in H; congruence
    end.
Qed.

Lemma reported_refl (s : gstate) : reported s s.
Proof.
  exists []. split; [symmetry; apply app_nil_r|]. left. auto.
Qed.

Lemma reported_step (s0 : gstate) (p : pc) (s : gstate) :
  (0 <= tick)%Z ->
  reported s0 s -> reported s0 (snd (step tick pressed (p, s))).
Proof.
  intros Htick [more [O H]].
  destruct (step_effect p s Htick) as [_ [[M E] | [E N]]].
  - exists more. rewrite E, M. split; [exact O | exact H].
  - exists (more ++ mode_report (mode (snd (step tick pressed (p, s)))))%list.
    split; [rewrite E, O, app_assoc; reflexivity|].
    right. exists more. split; [reflexivity | exact N].
Qed.

Lemma run_reported (s0 : gstate) (fuel : nat) :
  (0 <= tick)%Z ->
  forall c, reported s0 (snd c) ->
            reported s0 (snd (run tick pressed fuel c)).
Proof.
  intro Htick. induction fuel as [|fuel IH]; intros [p s] H; [exact H|].
  cbn [run fst]. destruct p; try exact H; apply IH, reported_step; assumption.
Qed.

Lemma run_direct_run (fuel : nat) :
  forall c s',
    run_direct tick pressed fuel c = Some s' ->
    run tick pressed fuel c = (Returned, s').
Proof.
  induction fuel as [|fuel IH]; intros [p s] s' H; [discriminate|].
  cbn [run_direct run fst snd] in *.
  destruct p; try (inversion H; reflexivity);
    destruct (fst (step tick pressed _)) eqn:E; try discriminate;
    apply IH; exact H.
Qed.

Lemma run_direct_effect (fuel : nat) :
  forall p s s',
    run_direct tick pressed fuel (p, s) = Some s' ->
    (mode s' = mode s /\ out s' = out s) \/
    (mode s' <> mode s /\ out s' = (out s ++ mode_report (mode s'))%list).
Proof.
  induction fuel as [|fuel IH]; intros p s s' H; [discriminate|].
  cbn [run_direct fst snd] in H.
  assert (K : p = Returned \/
              ((forall t, fst (step tick pressed (p, s)) <> Entry t) /\
               run_direct tick pressed fuel (step tick pressed (p, s)) =
                 Some s')).
  { destruct p; try (left; reflexivity); right;
      destruct (fst (step tick pressed _)) eqn:E; try discriminate;
      (split; [intros t; discriminate | exact H]). }
  destruct K as [K | [NoEntry Hrun]].
  { subst p. inversion H. left. auto. }
  destruct (step tick pressed (p, s)) as [p' s2] eqn:E.
  pose proof (step_direct p s) as D. rewrite E in D. cbn [fst snd] in D.
  specialize (D NoEntry).
  destruct D as [[M O] | [R [M O]]].
  - rewrite <- M, <- O. apply (IH p' s2 s' Hrun).
  - subst p'. destruct fuel; [discriminate|].
    cbn [run_direct fst snd] in Hrun. inversion Hrun. subst s'.
    right. auto.
Qed.

End GestureInvariants.

(** X11. When [get_mode] returns, its console lines and LED calls were
    added after those already there, and either it added nothing and left
    the mode as it was, or the last thing it printed and the last call it
    made on the status LED are those of the mode it leaves active: the LED
    never shows another mode than the one in force. *)
Theorem led_follows_mode (tick : Z) (pressed : Z -> bool) (fuel : nat)
    (s s' : gstate) :
  (0 <= tick)%Z ->
  get_mode tick pressed fuel s = Some s' ->
  reported s s'.
Proof.
  intros Htick H. unfold get_mode in H.
  pose proof (run_reported tick pressed s fuel Htick (Entry (-1), s)
                (reported_refl s)) as R.
  destruct (run tick pressed fuel (Entry (-1), s)) as [p s1].
  destruct p; try discriminate. inversion H. subst. exact R.
Qed.

Lemma led_follows_mode_witness :
  reported (mkG 0 ORD_MODE [])
    (mkG 2502 ORD_MODE
       [Print "MS mode"; RegledOff; Print "ORD Mode"; RegledBlink]).
Proof.
  apply (led_follows_mode 1 click_then_long_hold 3000); [lia|].
  vm_compute. reflexivity.
Defined.

(** X12. A run of [get_mode] that does not call [get_mode] again (line
    434 is not reached) is silent when it resolves to the mode already
    active, and otherwise reports the new mode once: one console line and
    one LED call, those of the new mode. *)
Theorem direct_run_reports_changes_only (tick : Z) (pressed : Z -> bool)
    (fuel : nat) (s s' : gstate) :
  run_direct tick pressed fuel (Entry (-1), s) = Some s' ->
  get_mode tick pressed fuel s = Some s' /\
  ((mode s' = mode s /\ out s' = out s) \/
   (mode s' <> mode s /\ out s' = (out s ++ mode_report (mode s'))%list)).
Proof.
  intro H. split.
  - unfold get_mode. rewrite (run_direct_run tick pressed fuel _ _ H).
    reflexivity.
  - apply (run_direct_effect tick pressed fuel _ _ _ H).
Qed.

Lemma direct_run_reports_changes_only_witness :
  get_mode 1 single_click 1100 (mkG 0 MS_MODE []) =
    Some (mkG 1002 MS_MODE []).
Proof.
  refine (proj1 (direct_run_reports_changes_only 1 single_click 1100
                   (mkG 0 MS_MODE []) (mkG 1002 MS_MODE []) _)).
  vm_compute. reflexivity.
Defined.

(** *** The handler returns once the button is left alone *)

Section GestureLiveness.

Variable tick : Z.
Variable pressed : Z -> bool.
Hypothesis tick_pos : (0 < tick)%Z.

(** From instant [r] on the button is not pressed. *)
Variable r : Z.
Hypothesis released : forall x, (r <= x)%Z -> pressed x = false.

Abbreviation step' := (step tick pressed).
Abbreviation reaches' := (reaches tick pressed).

Lemma returns_from_entry (t0 : Z) (s : gstate) :
  (r <= now s)%Z -> reaches' (Entry t0, s) (Returned, s).
Proof.
  intro H. apply reaches_next. unfold step, is_pressed.
  rewrite (released _ H). apply reaches_here.
Qed.

Lemma returns_from_long_hold (t0 : Z) (s : gstate) :
  (r <= now s)%Z -> exists s', reaches' (LongHold t0, s) (Returned, s').
Proof.
  intro H.
  destruct (Z_le_gt_dec (now s - t0) ORD_TIME) as [Hin | Hout];
    eexists; apply reaches_next; unfold step.
  - rewrite (poll_edge tick pressed) by (try apply released; lia).
    apply reaches_here.
  - rewrite (poll_expired tick pressed) by lia. apply reaches_here.
Qed.

Lemma returns_from_second_hold (t0 t1 : Z) (s : gstate) :
  (r <= now s)%Z ->
  exists s', reaches' (SecondHold t0 t1, s) (Returned, s').
Proof.
  intro H.
  destruct (Z_le_gt_dec (now s - t0) RDM_TIME) as [Hin | Hout];
    eexists; apply reaches_next; unfold step.
  - rewrite (poll_edge tick pressed) by (try apply released; lia).
    apply reaches_here.
  - rewrite (poll_expired tick pressed) by lia.
    apply returns_from_entry. cbn [switch advance now]. lia.
Qed.

Lemma returns_from_released (t0 : Z) (s : gstate) :
  (r <= now s)%Z -> exists s', reaches' (Released t0, s) (Returned, s').
Proof.
  intro H.
  destruct (spin_expired tick pressed tick_pos (Released t0) t0 RDM_TIME true
              (fun s1 => (SecondHold t0 (now s1), advance tick s1))
              (fun s1 =>
                 (Returned,
                  switch_if_changed MS_MODE "MS mode" RegledOff s1))
              (fun s => eq_refl)
              (Z.to_nat (t0 + RDM_TIME + 1 - now s)) s (le_n _))
    as [s' [R _]].
  - intros x Hx. apply released. lia.
  - eexists. exact R.
Qed.

Lemma returns_from_first_hold (t0 : Z) (s : gstate) :
  (r <= now s)%Z -> exists s', reaches' (FirstHold t0, s) (Returned, s').
Proof.
  intro H.
  destruct (Z_le_gt_dec (now s - t0) RDM_TIME) as [Hin | Hout].
  - destruct (returns_from_released t0 (advance tick s)) as [s' R];
      [cbn [advance now]; lia|].
    exists s'. apply reaches_next. unfold step.
    rewrite (poll_edge tick pressed) by (try apply released; lia).
    exact R.
  - destruct (returns_from_long_hold t0 (advance tick s)) as [s' R];
      [cbn [advance now]; lia|].
    exists s'. apply reaches_next. unfold step.
    rewrite (poll_expired tick pressed) by lia. exact R.
Qed.

Lemma returns_after_release (p : pc) (s : gstate) :
  (r <= now s)%Z -> exists s', reaches' (p, s) (Returned, s').
Proof.
  intro H. destruct p.
  - eexists. apply returns_from_entry, H.
  - apply returns_from_first_hold, H.
  - apply returns_from_released, H.
  - apply returns_from_second_hold, H.
  - apply returns_from_long_hold, H.
  - eexists. apply reaches_here.
Qed.

(** Every step from the head of a loop reads the clock. *)
Lemma loop_step_clock (p : pc) (s : gstate) :
  (forall t, p <> Entry t) -> p <> Returned ->
  (now s + tick <= now (snd (step' (p, s))))%Z.
Proof.
  intros NE NR.
  destruct p; try (exfalso; eapply NE; reflexivity); try congruence;
    unfold step, poll_once, time_time, is_pressed, switch_if_changed,
      switch, advance;
    repeat match goal with
      | |- context [if ?b then _ else _] => destruct b eqn:?
      end;
    cbn [fst snd now mode out]; lia.
Qed.

Lemma entry_step (t0 : Z) (s : gstate) :
  step' (Entry t0, s) = (Returned, s) \/
  exists t s1, step' (Entry t0, s) = (FirstHold t, s1) /\
               (now s <= now s1)%Z.
Proof.
  unfold step, time_time, advance.
  destruct (is_pressed pressed s); [|left; reflexivity].
  right. destruct (t0 =? -1)%Z; do 2 eexists;
    (split; [reflexivity|]); cbn [now]; lia.
Qed.

Lemma returns_within (n : nat) :
  forall p s, (Z.to_nat (r - now s) <= n)%nat ->
              exists s', reaches' (p, s) (Returned, s').
Proof.
  induction n as [|n IH]; intros p s Hn.
  { apply returns_after_release. lia. }
  destruct (Z_le_gt_dec r (now s)) as [Hafter | Hbefore];
    [apply returns_after_release, Hafter|].
  assert (Loop : forall q s1,
             (forall t, q <> Entry t) -> q <> Returned ->
             (now s <= now s1)%Z ->
             exists s', reaches' (q, s1) (Returned, s')).
  { intros q s1 NE NR Hs1.
    pose proof (loop_step_clock q s1 NE NR) as Hclk.
    destruct (step' (q, s1)) as [q' s2] eqn:E. cbn [snd] in Hclk.
    destruct (IH q' s2) as [s' R]; [lia|].
    exists s'. apply reaches_next. rewrite E. exact R. }
  destruct p.
  - destruct (entry_step t0 s) as [E | [t [s1 [E Hs1]]]].
    + exists s. apply reaches_next. rewrite E. apply reaches_here.
    + destruct (Loop (FirstHold t) s1) as [s' R];
        [discriminate | discriminate | exact Hs1|].
      exists s'. apply reaches_next. rewrite E. exact R.
  - apply Loop; [discriminate | discriminate | lia].
  - apply Loop; [discriminate | discriminate | lia].
  - apply Loop; [discriminate | discriminate | lia].
  - apply Loop; [discriminate | discriminate | lia].
  - eexists. apply reaches_here.
Qed.

End GestureLiveness.

(** X13. If from some instant on the button stays released, [get_mode]
    returns, whatever was done with the button before: none of its loops
    and no chain of calls to itself goes on for ever. *)
Theorem get_mode_returns (tick r : Z) (pressed : Z -> bool) (s : gstate) :
  (0 < tick)%Z ->
  (forall x, (r <= x)%Z -> pressed x = false) ->
  exists k s',
    forall fuel, (k <= fuel)%nat -> get_mode tick pressed fuel s = Some s'.
Proof.
  intros Htick Hrel.
  destruct (returns_within tick pressed Htick r Hrel
              (Z.to_nat (r - now s)) (Entry (-1)) s (le_n _)) as [s' R].
  destruct (reaches_run tick pressed _ _ R) as [k Hk].
  exists k, s'. intros fuel Hf. unfold get_mode.
  rewrite (Hk fuel Hf). reflexivity.
Qed.

Lemma get_mode_returns_witness :
  exists k s',
    forall fuel, (k <= fuel)%nat ->
                 get_mode 1 click_then_hold fuel (mkG 0 MS_MODE []) = Some s'.
Proof.
  apply (get_mode_returns 1 1500 click_then_hold (mkG 0 MS_MODE []));
    [lia|].
  intros x Hx. unfold click_then_hold.
  destruct (Z.ltb_spec x 300); [lia|].
  destruct (Z.ltb_spec x 1500); [lia|].
  destruct (500 <=? x)%Z; reflexivity.
Defined.

(** ** What [sonic] measures *)

Section SonicPulse.

Variable w : world.
Variable old_mode : Z.

Lemma wait_echo_high_run (n : nat) :
  forall (k : nat) (x : Q) (fuel : nat),
    (forall j, (k <= j < k + n)%nat ->
               echo (w j) = false /\ shared_mode (w j) = old_mode) ->
    echo (w (k + n)%nat) = true ->
    (n < fuel)%nat ->
    wait_echo_high fuel w old_mode k x =
    Some (S (k + n)%nat, match n with
                     | O => x
                     | S m => clock (w (k + m)%nat)
                     end).
Proof.
  induction n as [|n IH]; intros k x fuel Hlow Hhigh Hf;
    (destruct fuel as [|fuel]; [lia|]); cbn [wait_echo_high].
  - rewrite Nat.add_0_r in *. rewrite Hhigh. reflexivity.
  - destruct (Hlow k) as [E M]; [lia|]. rewrite E, M, Z.eqb_refl.
    cbn [negb andb].
    rewrite (IH (S k) (clock (w k)) fuel); [| | |lia].
    + replace (S k + n)%nat with (k + S n)%nat by lia.
      destruct n as [|n]; [rewrite Nat.add_0_r; reflexivity|].
      replace (S k + n)%nat with (k + S n)%nat by lia. reflexivity.
    + intros j Hj. apply Hlow. lia.
    + replace (S k + n)%nat with (k + S n)%nat by lia. exact Hhigh.
Qed.

Lemma wait_echo_low_run (n : nat) :
  forall (k : nat) (x : Q) (fuel : nat),
    (forall j, (k <= j < k + n)%nat ->
               echo (w j) = true /\ shared_mode (w j) = old_mode) ->
    echo (w (k + n)%nat) = false ->
    (n < fuel)%nat ->
    wait_echo_low fuel w old_mode k x =
    Some (S (k + n)%nat, match n with
                     | O => x
                     | S m => clock (w (k + m)%nat)
                     end).
Proof.
  induction n as [|n IH]; intros k x fuel Hhigh Hlow Hf;
    (destruct fuel as [|fuel]; [lia|]); cbn [wait_echo_low].
  - rewrite Nat.add_0_r in *. rewrite Hlow. reflexivity.
  - destruct (Hhigh k) as [E M]; [lia|]. rewrite E, M, Z.eqb_refl.
    cbn [andb].
    rewrite (IH (S k) (clock (w k)) fuel); [| | |lia].
    + replace (S k + n)%nat with (k + S n)%nat by lia.
      destruct n as [|n]; [rewrite Nat.add_0_r; reflexivity|].
      replace (S k + n)%nat with (k + S n)%nat by lia. reflexivity.
    + intros j Hj. apply Hhigh. lia.
    + replace (S k + n)%nat with (k + S n)%nat by lia. exact Hlow.
Qed.

End SonicPulse.

(** One pass of the duration loop over an echo that is low for [n1]
    probes, high for [n2 + 1] and low again, the mode staying what it was:
    [start] is the clock of the last low probe, or 0 when there was
    none. *)
Lemma sonic_pulse (w : world) (k n1 n2 fuel : nat) (start : Q) :
  start = match n1 with
          | O => 0
          | S m => clock (w (k + 2 + m)%nat)
          end ->
  (forall j, (k < j < k + 4 + n1 + n2)%nat ->
             shared_mode (w j) = shared_mode (w k)) ->
  (forall j, (k + 2 <= j < k + 2 + n1)%nat -> echo (w j) = false) ->
  (forall j, (k + 2 + n1 <= j < k + 4 + n1 + n2)%nat -> echo (w j) = true) ->
  echo (w (k + 4 + n1 + n2)%nat) = false ->
  start < clock (w (k + 3 + n1 + n2)%nat) ->
  (n1 + n2 + 4 <= fuel)%nat ->
  sonic fuel w k =
  Some ((k + 7 + n1 + n2)%nat,
        (clock (w (k + 6 + n1 + n2)%nat),
         round2 ((clock (w (k + 3 + n1 + n2)%nat) - start) * 1000000 /
                 ULTRASONIC_CONVERSION))).
Proof.
  intros Hstart Hmode Hlow Hhigh Hend Hclk Hf.
  unfold sonic. destruct fuel as [|fuel]; [lia|].
  cbn [duration_loop].
  rewrite (Hmode (S k)) by lia. rewrite Z.eqb_refl.
  change (Qle_bool (- (1)) 0 && true) with true. cbv iota.
  rewrite (wait_echo_high_run w (shared_mode (w k)) n1 (S (S k)) 0 fuel);
    [| | |lia].
  2:{ intros j Hj. split; [apply Hlow; lia | apply Hmode; lia]. }
  2:{ apply Hhigh. lia. }
  rewrite (wait_echo_low_run w (shared_mode (w k)) (S n2)
             (S (S (S k) + n1)) 0 fuel); [| | |lia].
  2:{ intros j Hj. split; [apply Hhigh; lia | apply Hmode; lia]. }
  2:{ replace (S (S (S k) + n1) + S n2)%nat with (k + 4 + n1 + n2)%nat
        by lia. exact Hend. }
  replace (S (S (S k) + n1) + n2)%nat with (k + 3 + n1 + n2)%nat by lia.
  replace (match n1 with
           | O => 0
           | S m => clock (w (S (S k) + m)%nat)
           end) with start.
  2:{ rewrite Hstart. destruct n1; [reflexivity|].
      replace (S (S k) + n1)%nat with (k + 2 + n1)%nat by lia.
      reflexivity. }
  destruct fuel as [|fuel]; [lia|]. cbn [duration_loop].
  replace (Qle_bool ((clock (w (k + 3 + n1 + n2)%nat) - start) * 1000000) 0)
    with false.
  2:{ symmetry. apply Qle_bool_false. nra. }
  cbn [andb].
  replace (S (S (S (S (S k) + n1) + S n2)))%nat with (k + 6 + n1 + n2)%nat
    by lia.
  replace (S (k + 6 + n1 + n2))%nat with (k + 7 + n1 + n2)%nat by lia.
  reflexivity.
Qed.

(** X14. A clean measurement.  While the mode does not change, if the
    echo line is low for [m + 1] probes, then high, then low again, and
    the clock has moved between the last low probe and the last high one,
    [sonic] returns after one pass of its loops, and the distance is the
    time between those two probes, in microseconds, divided by 79 and
    rounded to two decimals. *)
Theorem sonic_measures_pulse (w : world) (k m n2 fuel : nat) :
  (forall j, (k < j < k + 5 + m + n2)%nat ->
             shared_mode (w j) = shared_mode (w k)) ->
  (forall j, (k + 2 <= j < k + 3 + m)%nat -> echo (w j) = false) ->
  (forall j, (k + 3 + m <= j < k + 5 + m + n2)%nat -> echo (w j) = true) ->
  echo (w (k + 5 + m + n2)%nat) = false ->
  clock (w (k + 2 + m)%nat) < clock (w (k + 4 + m + n2)%nat) ->
  (m + n2 + 5 <= fuel)%nat ->
  sonic fuel w k =
  Some ((k + 8 + m + n2)%nat,
        (clock (w (k + 7 + m + n2)%nat),
         round2 ((clock (w (k + 4 + m + n2)%nat) -
                  clock (w (k + 2 + m)%nat)) * 1000000 /
                 ULTRASONIC_CONVERSION))).
Proof.
  intros Hmode Hlow Hhigh Hend Hclk Hf.
  rewrite (sonic_pulse w k (S m) n2 fuel (clock (w (k + 2 + m)%nat)));
    try reflexivity; try lia.
  - replace (k + 7 + S m + n2)%nat with (k + 8 + m + n2)%nat by lia.
    replace (k + 6 + S m + n2)%nat with (k + 7 + m + n2)%nat by lia.
    replace (k + 3 + S m + n2)%nat with (k + 4 + m + n2)%nat by lia.
    reflexivity.
  - intros j Hj. apply Hmode. lia.
  - intros j Hj. apply Hlow. lia.
  - intros j Hj. apply Hhigh. lia.
  - replace (k + 4 + S m + n2)%nat with (k + 5 + m + n2)%nat by lia.
    exact Hend.
  - replace (k + 3 + S m + n2)%nat with (k + 4 + m + n2)%nat by lia.
    exact Hclk.
Qed.

Ltac probes :=
  intros j Hj; unfold clean_echo, early_echo; cbn [echo shared_mode];
  repeat match goal with
    | |- context [(?a <=? ?b)%nat] => destruct (Nat.leb_spec a b)
    | |- context [(?a <? ?b)%nat] => destruct (Nat.ltb_spec a b)
    end;
  simpl; try reflexivity; lia.

Lemma sonic_measures_pulse_witness :
  sonic 10 clean_echo 0%nat =
  Some (12%nat,
        (clock (clean_echo 11%nat),
         round2 ((clock (clean_echo 8%nat) - clock (clean_echo 4%nat)) *
                 1000000 / ULTRASONIC_CONVERSION))).
Proof.
  apply (sonic_measures_pulse clean_echo 0 2 2 10); try probes.
  - reflexivity.
  - reflexivity.
  - lia.
Defined.

(** X15. A missed rising edge.  If the echo line is already high at the
    first poll, [pulse_start] keeps its initial value 0, and the distance
    returned is computed from the clock of the last high probe itself, not
    from the length of a pulse. *)
Theorem sonic_missed_rising_edge (w : world) (k n2 fuel : nat) :
  (forall j, (k < j < k + 4 + n2)%nat ->
             shared_mode (w j) = shared_mode (w k)) ->
  (forall j, (k + 2 <= j < k + 4 + n2)%nat -> echo (w j) = true) ->
  echo (w (k + 4 + n2)%nat) = false ->
  0 < clock (w (k + 3 + n2)%nat) ->
  (n2 + 4 <= fuel)%nat ->
  sonic fuel w k =
  Some ((k + 7 + n2)%nat,
        (clock (w (k + 6 + n2)%nat),
         round2 ((clock (w (k + 3 + n2)%nat) - 0) * 1000000 /
                 ULTRASONIC_CONVERSION))).
Proof.
  intros Hmode Hhigh Hend Hclk Hf.
  rewrite (sonic_pulse w k 0 n2 fuel 0); try reflexivity; try lia.
  - replace (k + 7 + 0 + n2)%nat with (k + 7 + n2)%nat by lia.
    replace (k + 6 + 0 + n2)%nat with (k + 6 + n2)%nat by lia.
    replace (k + 3 + 0 + n2)%nat with (k + 3 + n2)%nat by lia.
    reflexivity.
  - intros j Hj. apply Hmode. lia.
  - intros j Hj. apply Hhigh. lia.
  - replace (k + 4 + 0 + n2)%nat with (k + 4 + n2)%nat by lia. exact Hend.
  - replace (k + 3 + 0 + n2)%nat with (k + 3 + n2)%nat by lia. exact Hclk.
Qed.

Lemma sonic_missed_rising_edge_witness :
  sonic 10 early_echo 0%nat =
  Some (9%nat,
        (clock (early_echo 8%nat),
         round2 ((clock (early_echo 5%nat) - 0) * 1000000 /
                 ULTRASONIC_CONVERSION))).
Proof.
  apply (sonic_missed_rising_edge early_echo 0 2 10); try probes.
  - reflexivity.
  - reflexivity.
  - lia.
Defined.

(** X16. An abandoned measurement.  If the mode has changed by the first
    test of the loop, [sonic] returns at once with the distance -0.01, the
    rounding of the initial duration -1 divided by 79; [frequency] maps
    that reading to [MAX_FREQ], as for an object closer than [MIN_DIST],
    and a recording session buffers it as a number, since it is not above
    100. *)
Theorem sonic_abandoned_reading (w : world) (k fuel : nat) :
  shared_mode (w (S k)) <> shared_mode (w k) ->
  (1 <= fuel)%nat ->
  sonic fuel w k = Some ((k + 3)%nat, (clock (w (k + 2)%nat), - (1 # 100))) /\
  frequency (- (1 # 100)) = Freq (Some MAX_FREQ) /\
  (forall t, range_cells (mkRange t (- (1 # 100))) =
             [Str t; Str "NaN"; Num (- (1 # 100))]).
Proof.
  intros Hmode Hf. split; [|split; [reflexivity | intro t; reflexivity]].
  unfold sonic. destruct fuel as [|fuel]; [lia|].
  rewrite (duration_loop_stops w (shared_mode (w k)) fuel (S k) 0 0 (-(1)))
    by exact Hmode.
  replace (S (S (S k))) with (k + 3)%nat by lia.
  replace (S (S k)) with (k + 2)%nat by lia.
  reflexivity.
Qed.

Lemma sonic_abandoned_reading_witness :
  sonic 1 changed_at_once 0%nat =
  Some (3%nat, (clock (changed_at_once 2%nat), - (1 # 100))).
Proof.
  refine (proj1 (sonic_abandoned_reading changed_at_once 0 1 _ _)).
  - discriminate.
  - lia.
Defined.

(** ** More on sessions *)

Lemma mode_settings_record (cmode : Z) :
  snd (mode_settings cmode) = true <->
  (cmode = RDM_MODE \/ cmode = ORD_MODE).
Proof.
  unfold mode_settings, RDM_MODE, ORD_MODE.
  destruct (Z.eqb_spec cmode 1); destruct (Z.eqb_spec cmode 2);
    destruct (Z.eqb_spec cmode 3); simpl; split; intro H;
    try discriminate; try tauto; try lia; destruct H; lia.
Qed.

(** X17. The end of a session, by a change of mode or by an interrupt
    between two passes, on a buffer that holds readings: the statement
    completes, and what it appends to the session file is the rows of the
    buffer, every one of them and nothing else, in timestamp order and
    with their three columns. *)
Theorem session_end_writes_buffer (e : ending) (s : session) :
  record s = true -> buffer_ok (data s) -> readings s <> [] ->
  exists s' written,
    finish e s = Done s' /\
    disk s' (filename s) = (disk s (filename s) ++ written)%list /\
    (forall other, other <> filename s -> disk s' other = disk s other) /\
    Permutation written (readings s) /\
    Sorted time_ordered written /\
    Forall reading_line written.
Proof.
  intros Hrec Hok Hne.
  destruct (finish_spec e s Hrec Hok) as [[s' [E [N D]]] | [K _]];
    [|contradiction].
  exists s', (sorted_lines (rows (data s))).
  split; [exact E|]. rewrite D. unfold write_append.
  split; [rewrite String.eqb_refl; reflexivity|].
  split.
  { intros other Hother.
    destruct (String.eqb_spec other (filename s)); [contradiction|].
    reflexivity. }
  split; [apply sorted_lines_perm|].
  split; [apply sorted_lines_sorted | apply sorted_lines_readings, Hok].
Qed.

Lemma session_1_ok : buffer_ok (data session_1).
Proof.
  split; [left; reflexivity|].
  constructor; [|constructor]. apply (range_cells_reading sample_range).
Qed.

Lemma session_end_writes_buffer_witness :
  exists s' written,
    finish ModeChanged session_1 = Done s' /\
    disk s' (filename session_1) =
      (disk session_1 (filename session_1) ++ written)%list /\
    List.length written = 1%nat.
Proof.
  destruct (session_end_writes_buffer ModeChanged session_1)
    as [s' [written [E [D [_ [P _]]]]]].
  - reflexivity.
  - exact session_1_ok.
  - discriminate.
  - exists s', written. split; [exact E|]. split; [exact D|].
    rewrite (Permutation_length P). reflexivity.
Defined.

(** X18. When a session ends right after the pass that wrote the buffer
    out at the threshold, the selection of the three columns (line 657, or
    line 675 in the interrupt handler) is applied to the frame without
    columns that line 648 left, and raises [KeyError]: the end of the
    session does not complete.  The buffer is empty then, and the file
    keeps what the write-out at the threshold appended. *)
Theorem session_end_after_flush_raises (e : ending) (s : session)
    (pots : list pot_reading) (r : range_reading) :
  record s = true -> buffer_ok (data s) ->
  (BUFFER_SIZE < List.length (readings s ++ pass_cells pots r))%nat ->
  exists s',
    iteration pots r s = Done s' /\
    (iteration pots r ;; finish e) s = Raised KeyError s' /\
    readings s' = [] /\
    List.length (disk s' (filename s)) =
      (List.length (disk s (filename s)) +
       List.length (readings s ++ pass_cells pots r))%nat.
Proof.
  intros Hrec Hok Hlt. unfold then_.
  rewrite (iteration_spec s pots r Hrec Hok).
  apply Nat.ltb_lt in Hlt. rewrite Hlt. eexists.
  split; [reflexivity|]. rewrite Hrec.
  split; [destruct e; reflexivity|].
  split; [reflexivity|].
  cbn [disk]. unfold write_append. rewrite String.eqb_refl.
  rewrite length_app, length_map. unfold sorted_lines.
  rewrite length_map, (Permutation_length (sort_rows_by_perm _ _)).
  rewrite length_relabel. reflexivity.
Qed.

(** X19. The lines that the write-out at the threshold appends are the
    buffered rows in timestamp order, each without its first cell, the
    timestamp: they have two cells where the lines written at the end of a
    session have three. *)
Theorem threshold_flush_drops_timestamps (s : session)
    (pots : list pot_reading) (r : range_reading) :
  record s = true -> buffer_ok (data s) ->
  (BUFFER_SIZE < List.length (readings s ++ pass_cells pots r))%nat ->
  exists s' sorted,
    iteration pots r s = Done s' /\
    Permutation sorted (readings s ++ pass_cells pots r) /\
    Sorted time_ordered sorted /\
    disk s' (filename s) =
      (disk s (filename s) ++ map (@tl cell) sorted)%list /\
    Forall (fun line => List.length line = 2%nat) (map (@tl cell) sorted).
Proof.
  intros Hrec Hok Hlt.
  assert (F : Forall reading_line (readings s ++ pass_cells pots r)).
  { apply Forall_app. split;
      [apply buffer_ok_readings, Hok | apply pass_cells_readings]. }
  rewrite (iteration_spec s pots r Hrec Hok).
  apply Nat.ltb_lt in Hlt. rewrite Hlt.
  exists (mkSession (monitor s) (record s) (filename s) df_blank
            (write_append (disk s) (filename s)
               (map (@tl cell)
                  (sorted_lines
                     (relabel (readings s ++ pass_cells pots r)))))).
  exists (sorted_lines (relabel (readings s ++ pass_cells pots r))).
  split; [reflexivity|].
  split; [rewrite <- (map_snd_relabel (readings s ++ pass_cells pots r))
            at 2; apply sorted_lines_perm|].
  split; [apply sorted_lines_sorted|].
  split; [cbn [disk]; unfold write_append; rewrite String.eqb_refl;
          reflexivity|].
  apply Forall_forall. intros line Hin. apply in_map_iff in Hin.
  destruct Hin as [full [E Hfull]]. subst line.
  pose proof (sorted_readings _ F) as G. rewrite Forall_forall in G.
  destruct (G full Hfull) as [t [p [d [L _]]]]. subst full. reflexivity.
Qed.

(** A session under a mode that does not record keeps an empty buffer
    with the three columns, and never writes. *)
Lemma idle_iterations (its : list (list pot_reading * range_reading)) :
  forall s,
    record s = false -> data s = df_new COLUMNS ->
    iterations its s = Done s.
Proof.
  induction its as [|[pots r] its IH]; intros s Hrec Hdata; [reflexivity|].
  cbn [iterations]. unfold then_, iteration.
  assert (P : fold_left (fun s p => position_sample p s) pots s = s).
  { clear IH. induction pots as [|p pots IHp]; [reflexivity|].
    cbn [fold_left]. unfold position_sample at 2. rewrite Hrec. exact IHp. }
  rewrite P. unfold range_sample. rewrite Hrec.
  unfold check_buffer, buffer_size. rewrite Hdata. cbn [rows List.length].
  change (BUFFER_SIZE <? 0)%nat with false. cbv iota.
  apply IH; assumption.
Qed.

Lemma idle_run_session (cmode : Z) (ctime : string)
    (files : fsys) (its : list (list pot_reading * range_reading))
    (e : ending) :
  snd (mode_settings cmode) = false ->
  exists s',
    run_session cmode ctime files its e = Done s' /\
    disk s' = files /\ readings s' = [].
Proof.
  intro R. unfold run_session, then_, open_session.
  destruct (mode_settings cmode) as [mon rec]. cbn [snd] in R. subst rec.
  rewrite idle_iterations by reflexivity.
  destruct e; eexists; (split; [reflexivity|]); split; reflexivity.
Qed.

(** X20. A session under a mode that does not record (MS, or any value
    other than RDM and ORD) runs to its end, by a change of mode or by an
    interrupt, without raising, and leaves every file as it was, whatever
    readings it takes. *)
Theorem idle_session_writes_nothing (cmode : Z) (ctime : string)
    (files : fsys) (its : list (list pot_reading * range_reading))
    (e : ending) :
  cmode <> RDM_MODE -> cmode <> ORD_MODE ->
  exists s',
    run_session cmode ctime files its e = Done s' /\
    disk s' = files /\ readings s' = [].
Proof.
  intros H2 H3. apply idle_run_session.
  destruct (snd (mode_settings cmode)) eqn:E; [|reflexivity].
  apply mode_settings_record in E. tauto.
Qed.

Lemma idle_session_writes_nothing_witness :
  exists s',
    run_session MS_MODE sample_ctime no_files
      [([sample_pot], sample_range)] Interrupted = Done s' /\
    disk s' = no_files /\ readings s' = [].
Proof.
  apply (idle_session_writes_nothing MS_MODE); discriminate.
Defined.

Lemma session_250_ok :
  record session_250 = true /\ buffer_ok (data session_250).
Proof.
  destruct (iterations_ok no_files (data_filename sample_ctime)
              (repeat ([], sample_range) 250)
              (open_session RDM_MODE sample_ctime no_files)
              (open_session_ok RDM_MODE sample_ctime no_files eq_refl))
    as [s' [E [R [_ [B _]]]]].
  unfold session_250. rewrite E. cbn [final_state]. split; assumption.
Qed.

Lemma session_250_full :
  (BUFFER_SIZE <
   List.length (readings session_250 ++ pass_cells [] sample_range))%nat.
Proof.
  assert (E : List.length
                (readings session_250 ++ pass_cells [] sample_range) =
              251%nat) by (vm_compute; reflexivity).
  rewrite E. unfold BUFFER_SIZE. lia.
Qed.


Lemma session_end_after_flush_raises_witness :
  exists s',
    (iteration [] sample_range ;; finish ModeChanged) session_250 =
      Raised KeyError s' /\
    readings s' = [].
Proof.
  destruct (session_end_after_flush_raises ModeChanged session_250 []
              sample_range (proj1 session_250_ok) (proj2 session_250_ok)
              session_250_full) as [s' [_ [E [B _]]]].
  exists s'. split; [exact E | exact B].
Defined.

Lemma threshold_flush_drops_timestamps_witness :
  exists s' sorted,
    iteration [] sample_range session_250 = Done s' /\
    Forall (fun line => List.length line = 2%nat) (map (@tl cell) sorted).
Proof.
  destruct (threshold_flush_drops_timestamps session_250 [] sample_range
              (proj1 session_250_ok) (proj2 session_250_ok)
              session_250_full) as [s' [sorted [E [_ [_ [_ F]]]]]].
  exists s', sorted. split; [exact E | exact F].
Defined.

(** ** No reading is lost or written twice *)

Lemma open_session_tracks (cmode : Z) (ctime : string) (files : fsys) :
  snd (mode_settings cmode) = true ->
  session_tracks files (data_filename ctime) []
    (open_session cmode ctime files).
Proof.
  intro H. unfold open_session.
  destruct (mode_settings cmode) as [mon rec]. simpl in H. subst rec.
  split; [reflexivity|]. split; [reflexivity|].
  split; [split; [left; reflexivity | constructor]|].
  exists []. cbn [disk]. unfold write_append. rewrite String.eqb_refl.
  split; [reflexivity | apply perm_nil].
Qed.

Lemma payload_stripped (lines : list (list cell)) :
  Forall reading_line lines ->
  map payload (map (@tl cell) lines) = map payload lines.
Proof.
  intro F. rewrite map_map. apply map_ext_in. intros line Hin.
  rewrite Forall_forall in F. apply payload_tl, F, Hin.
Qed.

Lemma iteration_tracks (files : fsys) (name : string)
    (seen : list (list cell)) (s : session) (pots : list pot_reading)
    (r : range_reading) :
  session_tracks files name seen s ->
  exists s',
    iteration pots r s = Done s' /\
    session_tracks files name (seen ++ pass_cells pots r) s'.
Proof.
  intros [Hrec [Hname [Hok [flushed [Hdisk Hperm]]]]].
  assert (F : Forall reading_line (readings s ++ pass_cells pots r)).
  { apply Forall_app. split;
      [apply buffer_ok_readings, Hok | apply pass_cells_readings]. }
  assert (P : Permutation
                (map payload flushed ++
                 map payload (readings s ++ pass_cells pots r))%list
                (map payload (seen ++ pass_cells pots r))).
  { rewrite !map_app, app_assoc. apply Permutation_app_tail, Hperm. }
  rewrite (iteration_spec s pots r Hrec Hok).
  destruct (BUFFER_SIZE <? _)%nat; eexists; (split; [reflexivity|]).
  - unfold session_tracks. cbn [record filename data disk].
    split; [exact Hrec|]. split; [exact Hname|].
    split; [split; [right; split; reflexivity | constructor]|].
    exists (flushed ++
            map (@tl cell)
              (sorted_lines (relabel (readings s ++ pass_cells pots r))))%list.
    rewrite Hname. unfold write_append. rewrite String.eqb_refl, Hdisk.
    split; [rewrite <- app_assoc; reflexivity|].
    unfold readings in *. cbn [data rows map]. rewrite app_nil_r, map_app.
    rewrite (payload_stripped _ (sorted_readings _ F)).
    eapply Permutation_trans; [|exact P].
    apply Permutation_app_head, Permutation_map.
    rewrite <- (map_snd_relabel (map snd (rows (data s)) ++ pass_cells pots r))
      at 2.
    apply sorted_lines_perm.
  - unfold session_tracks, set_data. cbn [record filename data disk].
    split; [exact Hrec|]. split; [exact Hname|].
    split; [apply buffer_ok_relabel, F|].
    exists flushed. split; [exact Hdisk|].
    unfold readings in *. cbn [data rows]. rewrite map_snd_relabel.
    exact P.
Qed.

Lemma iterations_tracks (files : fsys) (name : string)
    (its : list (list pot_reading * range_reading)) :
  forall seen s,
    session_tracks files name seen s ->
    exists s',
      iterations its s = Done s' /\
      session_tracks files name (seen ++ all_cells its) s'.
Proof.
  induction its as [|[pots r] its IH]; intros seen s Hs.
  - exists s. split; [reflexivity|]. unfold all_cells. cbn [flat_map].
    rewrite app_nil_r. exact Hs.
  - destruct (iteration_tracks files name seen s pots r Hs) as [s1 [E1 H1]].
    destruct (IH _ s1 H1) as [s2 [E2 H2]].
    exists s2. split.
    + cbn [iterations]. unfold then_. rewrite E1. exact E2.
    + unfold all_cells in *. cbn [flat_map fst snd].
      rewrite app_assoc. exact H2.
Qed.

Lemma recording_run_session (cmode : Z) (ctime : string)
    (files : fsys) (its : list (list pot_reading * range_reading))
    (e : ending) :
  snd (mode_settings cmode) = true ->
  exists lines,
    disk (final_state (run_session cmode ctime files its e))
      (data_filename ctime) =
      (files (data_filename ctime) ++ header_line :: lines)%list /\
    Permutation (map payload lines) (map payload (all_cells its)) /\
    (forall other, other <> data_filename ctime ->
       disk (final_state (run_session cmode ctime files its e)) other =
       files other).
Proof.
  intro Hrec. unfold run_session, then_.
  destruct (iterations_tracks files (data_filename ctime) its [] _
              (open_session_tracks cmode ctime files Hrec))
    as [s1 [E1 [R1 [N1 [B1 [flushed [D1 P1]]]]]]].
  destruct (iterations_ok files (data_filename ctime) its _
              (open_session_ok cmode ctime files Hrec))
    as [s1' [E1' [_ [_ [_ [O1 _]]]]]].
  assert (s1' = s1) by congruence. subst s1'.
  rewrite E1. cbn [app] in P1.
  destruct (finish_spec e s1 R1 B1) as [[s' [E [N D]]] | [Empty E]];
    rewrite E; cbn [final_state].
  - exists (flushed ++ sorted_lines (rows (data s1)))%list.
    rewrite D, N1. unfold write_append.
    rewrite String.eqb_refl, D1, <- app_assoc.
    split; [reflexivity|]. split.
    + rewrite map_app. eapply Permutation_trans; [|exact P1].
      apply Permutation_app_head, Permutation_map, sorted_lines_perm.
    + intros other Hother.
      destruct (String.eqb_spec other (data_filename ctime));
        [contradiction | apply O1, Hother].
  - exists flushed. split; [exact D1|]. split; [|exact O1].
    rewrite Empty in P1. cbn [map] in P1. rewrite app_nil_r in P1.
    exact P1.
Qed.

(** X21. Over a whole recording session, however many write-outs at the
    threshold it makes and however it ends (change of mode or interrupt
    between two passes, completed or stopped by the [KeyError] of an empty
    buffer), the data lines of its file, after the header, carry the
    readings the session has taken, each one once: as many lines as
    readings, with the same potentiometer and distance cells. *)
Theorem session_conserves_readings (cmode : Z) (ctime : string)
    (files : fsys) (its : list (list pot_reading * range_reading))
    (e : ending) :
  snd (mode_settings cmode) = true ->
  exists lines,
    disk (final_state (run_session cmode ctime files its e))
      (data_filename ctime) =
      (files (data_filename ctime) ++ header_line :: lines)%list /\
    Permutation (map payload lines) (map payload (all_cells its)) /\
    List.length lines = List.length (all_cells its).
Proof.
  intro Hrec.
  destruct (recording_run_session cmode ctime files its e Hrec)
    as [lines [D [P _]]].
  exists lines. split; [exact D|]. split; [exact P|].
  rewrite <- (length_map payload lines), <- (length_map payload (all_cells its)).
  apply Permutation_length, P.
Qed.

Lemma session_conserves_readings_witness :
  exists lines,
    disk (final_state
            (run_session ORD_MODE sample_ctime no_files
               [([sample_pot], sample_range); ([], far_range)] Interrupted))
      (data_filename sample_ctime) =
      (no_files (data_filename sample_ctime) ++ header_line :: lines)%list /\
    List.length lines = 3%nat.
Proof.
  destruct (session_conserves_readings ORD_MODE sample_ctime no_files
              [([sample_pot], sample_range); ([], far_range)] Interrupted
              eq_refl) as [lines [D [_ L]]].
  exists lines. split; [exact D | exact L].
Defined.

(** ** Sessions in a row *)

(** X22. In a run that goes through a list of sessions, each file
    receives one block per recording session that names it, in the order
    of the sessions and nothing else: the header, then the readings of
    that session, each one once.  So no reading of a session lands in the
    file of another, unless both start in the same second of the clock and
    share the file, which then holds two headers. *)
Theorem sessions_keep_files_apart (plan : list session_plan)
    (name : string) :
  forall files files',
    run_sessions plan files = (None, files') ->
    exists blocks,
      files' name = (files name ++ List.concat blocks)%list /\
      Forall2 session_block blocks (filter (writes_to name) plan).
Proof.
  induction plan as [|[[cmode ctime] its] rest IH]; intros files files' H.
  - inversion H. subst. exists []. split; [|constructor].
    symmetry. apply app_nil_r.
  - cbn [run_sessions] in H.
    destruct (run_session cmode ctime files its ModeChanged) as [s | x s]
      eqn:E; [|discriminate].
    destruct (IH _ _ H) as [blocks [D F]].
    cbn [filter writes_to].
    destruct (snd (mode_settings cmode)) eqn:R.
    + destruct (recording_run_session cmode ctime files its ModeChanged R)
        as [lines [Dn [P O]]].
      rewrite E in Dn, O. cbn [final_state] in Dn, O.
      destruct (String.eqb_spec (data_filename ctime) name) as [Q | Q];
        cbn [andb].
      * subst name. exists ((header_line :: lines) :: blocks).
        split.
        { rewrite D, Dn. cbn [List.concat]. rewrite <- app_assoc.
          reflexivity. }
        constructor; [|exact F]. exists lines. split; [reflexivity|exact P].
      * exists blocks. split; [|exact F].
        rewrite D, (O name) by congruence. reflexivity.
    + destruct (idle_run_session cmode ctime files its ModeChanged R)
        as [s' [E' [D' _]]].
      assert (s' = s) by congruence. subst s'.
      cbn [andb]. exists blocks. split; [|exact F].
      rewrite D, D'. reflexivity.
Qed.

Lemma sessions_keep_files_apart_witness :
  exists blocks,
    snd (run_sessions same_second_plan no_files)
      (data_filename sample_ctime) =
      (no_files (data_filename sample_ctime) ++ List.concat blocks)%list /\
    List.length blocks = 2%nat.
Proof.
  destruct (sessions_keep_files_apart same_second_plan
              (data_filename sample_ctime) no_files
              (snd (run_sessions same_second_plan no_files)))
    as [blocks [D F]].
  - vm_compute. reflexivity.
  - exists blocks. split; [exact D|].
    rewrite (Forall2_length F). reflexivity.
Defined.
